(** * db/dataset_eval.py: the evaluation job queue

    A shallow embedding of [db/dataset_eval.py].  The module is a data-access
    layer over two tables ([dataset_eval_jobs], [dataset_snapshot]) and two
    collaborators ([db.dataset.get], [db.data.count_lowlevel]).  Every function
    of the module is a computation in a state-and-exception monad over a
    [World] that holds the tables, the clock behind [current_timestamp], the
    generator behind [uuid_generate_v4()] and the trace of the calls made to
    [count_lowlevel]. *)

From Stdlib Require Import List String Ascii Bool Arith ZArith Lia.
From Stdlib Require Import DecimalString.
From Stdlib Require Import Sorting.Permutation Sorting.Sorted.
Import ListNotations.
Local Open Scope list_scope.
Local Open Scope string_scope.

(** ** Python values of JSON shape *)

(** Dataset documents, snapshot blobs, job results and the dynamically typed
    arguments ([normalize], [filter_type], [status]) are Python values of JSON
    shape.  A dict is an association list in insertion order. *)
#[warnings="-register-all"] Inductive json : Type :=
| JNull : json
| JBool : bool -> json
| JNum : Z -> json
| JStr : string -> json
| JArr : list json -> json
| JObj : list (string * json) -> json.

Module Json.

(** [d[key]] on an association list: the first binding wins. *)
Fixpoint assoc (key : string) (m : list (string * json)) : option json :=
  match m with
  | [] => None
  | (k, v) :: m' => if String.eqb k key then Some v else assoc key m'
  end.

(** JSON string escaping for the characters [json.dumps] writes with a short
    escape.  The strings this module serialises are the keys [normalize],
    [filter_type] and the filter name, none of which holds any other control
    or non-ASCII character. *)
Fixpoint escape (s : string) : string :=
  match s with
  | EmptyString => EmptyString
  | String c s' =>
      let rest := escape s' in
      if Ascii.eqb c "034" then String "\" (String "034" rest)
      else if Ascii.eqb c "\" then String "\" (String "\" rest)
      else if Ascii.eqb c "010" then String "\" (String "n" rest)
      else if Ascii.eqb c "013" then String "\" (String "r" rest)
      else if Ascii.eqb c "009" then String "\" (String "t" rest)
      else String c rest
  end.

Definition quote (s : string) : string :=
  String "034" (escape s ++ String "034" EmptyString).

Definition number (z : Z) : string :=
  NilZero.string_of_int (Z.to_int z).

(** [json.dumps] with its default separators (", " and ": "). *)
Fixpoint dumps (v : json) : string :=
  match v with
  | JNull => "null"
  | JBool true => "true"
  | JBool false => "false"
  | JNum z => number z
  | JStr s => quote s
  | JArr l =>
      match l with
      | [] => "[]"
      | x :: l' =>
          "[" ++ dumps x
              ++ (fix rest (l : list json) : string :=
                    match l with
                    | [] => ""
                    | y :: l'' => ", " ++ dumps y ++ rest l''
                    end) l'
              ++ "]"
      end
  | JObj m =>
      let member (k : string) (x : string) := quote k ++ ": " ++ x in
      match m with
      | [] => "{}"
      | (k, x) :: m' =>
          "{" ++ member k (dumps x)
              ++ (fix rest (m : list (string * json)) : string :=
                    match m with
                    | [] => ""
                    | (k', y) :: m'' => ", " ++ member k' (dumps y) ++ rest m''
                    end) m'
              ++ "}"
      end
  end.

End Json.

(** [v[key]] on a Python value. *)
Definition getitem (v : json) (key : string) : option json :=
  match v with
  | JObj m => Json.assoc key m
  | _ => None
  end.

(** ** jsonschema *)

(** The part of JSON Schema that the complete-dataset schema uses: [type],
    [properties], [required], [items] and [minItems]. *)
Inductive json_type : Type :=
| TNull | TBoolean | TInteger | TString | TArray | TObject.

#[warnings="-register-all"] Inductive schema : Type :=
| Schema (types : list json_type)
         (properties : list (string * schema))
         (required : list string)
         (items : option schema)
         (minItems : nat).

(** What [jsonschema.ValidationError] reports: the keyword that failed and the
    instance it failed on. *)
Inductive ValidationError : Type :=
| NotOfType (instance : json) (expected : list json_type)
| RequiredProperty (key : string)
| TooShort (instance : json) (least : nat).

Module Jsonschema.

Definition has_type (v : json) (t : json_type) : bool :=
  match t, v with
  | TNull, JNull => true
  | TBoolean, JBool _ => true
  | TInteger, JNum _ => true
  | TString, JStr _ => true
  | TArray, JArr _ => true
  | TObject, JObj _ => true
  | _, _ => false
  end.

(** An empty [type] list stands for a schema without the keyword. *)
Definition check_type (types : list json_type) (v : json)
  : option ValidationError :=
  match types with
  | [] => None
  | _ => if existsb (has_type v) types then None
         else Some (NotOfType v types)
  end.

(** [required] constrains objects only. *)
Fixpoint check_required (required : list string) (v : json)
  : option ValidationError :=
  match required with
  | [] => None
  | k :: required' =>
      match v with
      | JObj m =>
          match Json.assoc k m with
          | Some _ => check_required required' v
          | None => Some (RequiredProperty k)
          end
      | _ => None
      end
  end.

(** [minItems] constrains arrays only. *)
Definition check_minItems (least : nat) (v : json) : option ValidationError :=
  match v with
  | JArr l =>
      if Nat.ltb (List.length l) least then Some (TooShort v least)
      else None
  | _ => None
  end.

Definition orelse (a b : option ValidationError) : option ValidationError :=
  match a with Some e => Some e | None => b end.

Definition first_error {A : Type} (f : A -> option ValidationError)
  : list A -> option ValidationError :=
  fix go (l : list A) :=
    match l with
    | [] => None
    | x :: l' => match f x with Some e => Some e | None => go l' end
    end.

(** [properties] constrains the members that are there. *)
Definition check_properties
           (validate : schema -> json -> option ValidationError) (v : json)
  : list (string * schema) -> option ValidationError :=
  fix go (ps : list (string * schema)) :=
    match ps with
    | [] => None
    | (k, sk) :: ps' =>
        orelse (match getitem v k with
                | Some x => validate sk x
                | None => None
                end)
               (go ps')
    end.

(** [items] constrains the elements of arrays only. *)
Definition check_items
           (validate : schema -> json -> option ValidationError)
           (items : option schema) (v : json) : option ValidationError :=
  match items, v with
  | Some si, JArr l => first_error (validate si) l
  | _, _ => None
  end.

(** [jsonschema.validate(instance, schema)]: [None] when the instance
    conforms, otherwise the first violation found. *)
Fixpoint validate (s : schema) (v : json) : option ValidationError :=
  match s with
  | Schema types properties required items least =>
      orelse (check_type types v)
     (orelse (check_required required v)
     (orelse (check_minItems least v)
     (orelse (check_properties validate v properties)
             (check_items validate items v))))
  end.

End Jsonschema.

(** Modelled from the spec: [db.dataset.JSON_SCHEMA_COMPLETE] is declared in
    [db/dataset.py], which is not part of the sources at hand.  The spec
    describes the shape it accepts: the dataset has its required descriptive
    field (a name) and a list of classes, and every class has a name and a
    non-empty list of recording references. *)
Definition string_schema : schema := Schema [TString] [] [] None 0.
Definition text_schema : schema := Schema [TString; TNull] [] [] None 0.

Definition CLASS_SCHEMA_COMPLETE : schema :=
  Schema [TObject]
         [("name", string_schema);
          ("description", text_schema);
          ("recordings", Schema [TArray] [] [] (Some string_schema) 1)]
         ["name"; "recordings"]
         None 0.

Definition JSON_SCHEMA_COMPLETE : schema :=
  Schema [TObject]
         [("name", string_schema);
          ("description", text_schema);
          ("classes", Schema [TArray] [] [] (Some CLASS_SCHEMA_COMPLETE) 0)]
         ["name"; "classes"]
         None 0.

(** ** The database and the collaborators *)

(** Identifiers produced by [uuid_generate_v4()]. *)
Definition uuid : Type := nat.

(** A row of [dataset_eval_jobs]. *)
Record Job : Type := mkJob {
  job_id : uuid;
  dataset_id : string;
  status : string;
  status_msg : option string;
  result : option json;
  options : string;
  created : nat;
  updated : nat
}.

(** A row of [dataset_snapshot]. *)
Record Snapshot : Type := mkSnapshot {
  snapshot_id : uuid;
  data : json
}.

(** Everything the module reads or writes.  [lowlevel] holds one entry per
    low-level document, keyed by recording; [datasets] is what
    [db.dataset.get] serves; [lowlevel_calls] records every call made to
    [db.data.count_lowlevel], oldest first.  [json_in] is the database's
    reader of JSON text: the value that comes back for a text written to a
    JSON column, or [None] for a text the database refuses. *)
Record World : Type := mkWorld {
  dataset_eval_jobs : list Job;
  dataset_snapshot : list Snapshot;
  datasets : list (string * json);
  lowlevel : list string;
  current_timestamp : nat;
  uuid_seed : nat;
  lowlevel_calls : list string;
  json_in : string -> option json
}.

Definition with_jobs (jobs : list Job) (w : World) : World :=
  mkWorld jobs (dataset_snapshot w) (datasets w) (lowlevel w)
          (current_timestamp w) (uuid_seed w) (lowlevel_calls w) (json_in w).

Definition with_snapshots (snapshots : list Snapshot) (w : World) : World :=
  mkWorld (dataset_eval_jobs w) snapshots (datasets w) (lowlevel w)
          (current_timestamp w) (uuid_seed w) (lowlevel_calls w) (json_in w).

Definition with_seed (seed : nat) (w : World) : World :=
  mkWorld (dataset_eval_jobs w) (dataset_snapshot w) (datasets w) (lowlevel w)
          (current_timestamp w) seed (lowlevel_calls w) (json_in w).

Definition with_calls (calls : list string) (w : World) : World :=
  mkWorld (dataset_eval_jobs w) (dataset_snapshot w) (datasets w) (lowlevel w)
          (current_timestamp w) (uuid_seed w) calls (json_in w).

(** ** Exceptions *)

(** The argument an [IncompleteDatasetException] is built with: the
    [jsonschema.ValidationError] it wraps, or a message. *)
Inductive IncompleteDetail : Type :=
| SchemaViolation (e : ValidationError)
| Message (msg : string).

Inductive exn : Type :=
| JobExistsException
| IncompleteDatasetException (detail : IncompleteDetail)
| IncorrectJobStatusException
| ValueError (msg : string)
| KeyError (key : string)
| TypeError
| IndexError
| ProgrammingError
| DataError
| NoDataFoundException.

(** ** Computations *)

Inductive outcome (A : Type) : Type :=
| Return (a : A)
| Raise (e : exn).
Arguments Return {A} a.
Arguments Raise {A} e.

Definition M (A : Type) : Type := World -> outcome A * World.

Definition ret {A : Type} (a : A) : M A := fun w => (Return a, w).

Definition raise {A : Type} (e : exn) : M A := fun w => (Raise e, w).

Definition bind {A B : Type} (m : M A) (k : A -> M B) : M B :=
  fun w =>
    match m w with
    | (Return a, w') => k a w'
    | (Raise e, w') => (Raise e, w')
    end.

Declare Scope db_scope.
Delimit Scope db_scope with db.
Notation "x <- m ;; k" := (bind m (fun x => k))
  (at level 100, m at next level, right associativity) : db_scope.
Notation "m ;;; k" := (bind m (fun _ => k))
  (at level 100, right associativity) : db_scope.
Local Open Scope db_scope.

(** The statement [pass]. *)
Definition pass : M unit := ret tt.

(** [if c: body] without an [else]. *)
Definition when (c : bool) (body : M unit) : M unit :=
  if c then body else ret tt.

(** [with db.engine.begin() as connection]: the block runs in a transaction
    that is committed when the block returns and rolled back when it raises.
    The rollback restores the tables; calls already made to collaborators
    stay made. *)
Definition begin {A : Type} (block : M A) : M A :=
  fun w =>
    match block w with
    | (Return a, w') => (Return a, w')
    | (Raise e, w') =>
        (Raise e,
         with_jobs (dataset_eval_jobs w)
                   (with_snapshots (dataset_snapshot w) w'))
    end.

(** [with db.engine.connect() as connection]: statements are committed as
    they are executed. *)
Definition connect {A : Type} (block : M A) : M A := block.

(** *** SQL *)

Module Sql.

(** [SELECT ... FROM dataset_eval_jobs WHERE cond]. *)
Definition select_jobs (cond : Job -> bool) : M (list Job) :=
  fun w => (Return (filter cond (dataset_eval_jobs w)), w).

(** [UPDATE dataset_eval_jobs SET ... WHERE cond]; the assignment may read
    [current_timestamp].  The database does not say where in the table an
    updated row is kept; here it keeps its place, and no statement below
    relies on the place of a row. *)
Definition update_jobs (set : nat -> Job -> Job) (cond : Job -> bool)
  : M unit :=
  fun w =>
    (Return tt,
     with_jobs (map (fun j => if cond j then set (current_timestamp w) j
                              else j)
                    (dataset_eval_jobs w)) w).

(** [uuid_generate_v4()]: a generator that never yields the same value
    twice. *)
Definition uuid_generate_v4 : M uuid :=
  fun w => (Return (uuid_seed w), with_seed (S (uuid_seed w)) w).

(** [INSERT INTO dataset_eval_jobs (id, dataset_id, status, options)
    VALUES (uuid_generate_v4(), ...) RETURNING id].

    Modelled from the spec: the defaults of the columns that the statement
    leaves out are declared in the schema definition, which is not part of
    the sources at hand; by the spec a new job has no status message and no
    result, and created/updated = now. *)
Definition insert_job (dataset_id status options : string) : M uuid :=
  id <- uuid_generate_v4 ;;
  fun w =>
    let now := current_timestamp w in
    (Return id,
     with_jobs (dataset_eval_jobs w
                ++ [mkJob id dataset_id status None None options now now])%list
               w).

(** [SELECT id, data FROM dataset_snapshot WHERE cond]. *)
Definition select_snapshots (cond : Snapshot -> bool) : M (list Snapshot) :=
  fun w => (Return (filter cond (dataset_snapshot w)), w).

(** [INSERT INTO dataset_snapshot (data) VALUES (...) RETURNING id], for the
    value as it is read back from the column.

    Modelled from the spec: the [id] column's default is declared in the
    schema definition, which is not part of the sources at hand; by the spec
    the id is generated at creation. *)
Definition insert_snapshot (data : json) : M uuid :=
  id <- uuid_generate_v4 ;;
  fun w =>
    (Return id,
     with_snapshots (dataset_snapshot w ++ [mkSnapshot id data])%list w).

(** [ORDER BY created ASC].  The database does not say in which order rows
    with the same [created] come; here they come in table order, and no
    statement below relies on the order of such rows. *)
Fixpoint insert_by_created (j : Job) (sorted : list Job) : list Job :=
  match sorted with
  | [] => [j]
  | j' :: sorted' =>
      if Nat.leb (created j) (created j') then j :: sorted
      else j' :: insert_by_created j sorted'
  end.

Definition order_by_created (rows : list Job) : list Job :=
  fold_right insert_by_created [] rows.

(** One Python value bound to a placeholder that feeds a JSON column: what
    the column then holds ([None] for NULL), or the error of the statement.
    [None] is sent as NULL.  A string is sent as a literal, which the
    database reads as JSON text.  A number or a boolean is sent as a literal
    of its own type, which a JSON column does not take.  A list is sent as an
    array, which the column does not take either, except that the empty list
    is sent as the literal '{}'; a dict cannot be sent at all. *)
Definition bind_json (v : json) : M (option json) :=
  fun w =>
    match v with
    | JNull => (Return None, w)
    | JStr text =>
        match json_in w text with
        | Some x => (Return (Some x), w)
        | None => (Raise DataError, w)
        end
    | JArr [] =>
        match json_in w "{}" with
        | Some x => (Return (Some x), w)
        | None => (Raise DataError, w)
        end
    | _ => (Raise ProgrammingError, w)
    end.

(** [connection.execute(statement, (data,))] for a statement with one
    positional placeholder: the value that reaches the placeholder.  When the
    first member of the tuple is a dict or a list, the tuple is taken for a
    sequence of parameter sets, so that [data] itself is the parameter set: a
    dict cannot fill a positional placeholder, and a list fills it when it
    has exactly one member. *)
Definition only_parameter (data : json) : M json :=
  match data with
  | JObj _ => raise TypeError
  | JArr [] => raise IndexError
  | JArr [x] => ret x
  | JArr _ => raise TypeError
  | _ => ret data
  end.

(** [connection.execute(statement, (result, job_id))] for a statement with
    two positional placeholders: the value that reaches the first one.  When
    [result] is a dict or a list, the tuple is taken for a sequence of two
    parameter sets, of which [job_id], a [uuid.UUID] as [evaluate_dataset]
    returns it, is none. *)
Definition first_parameter (result : json) : M json :=
  match result with
  | JObj _ | JArr _ => raise TypeError
  | _ => ret result
  end.

(** [LIMIT n]. *)
Definition limit {A : Type} (n : nat) (rows : list A) : list A :=
  firstn n rows.

(** [result.fetchone()]. *)
Definition fetchone {A : Type} (rows : list A) : option A := hd_error rows.

End Sql.

(** *** Collaborators *)

(** Modelled from the spec: [db.dataset.get] lives in [db/dataset.py], which
    is not part of the sources at hand.  By the spec it returns the dataset
    document of a retrievable dataset; for any other id the collaborator's
    failure propagates unchanged. *)
Definition dataset_get (dataset_id : string) : M json :=
  fun w =>
    match Json.assoc dataset_id (datasets w) with
    | Some dataset => (Return dataset, w)
    | None => (Raise NoDataFoundException, w)
    end.

(** Modelled from the spec: [db.data.count_lowlevel] lives in [db/data.py],
    which is not part of the sources at hand.  By the spec it answers with the
    number of low-level documents stored for the recording.  Each call is
    appended to the trace. *)
Definition count_lowlevel (mbid : string) : M nat :=
  fun w =>
    (Return (count_occ string_dec (lowlevel w) mbid),
     with_calls (lowlevel_calls w ++ [mbid])%list w).

(** ** The module *)

Definition STATUS_PENDING : string := "pending".
Definition STATUS_RUNNING : string := "running".
Definition STATUS_DONE : string := "done".
Definition STATUS_FAILED : string := "failed".

Definition FILTER_ARTIST : string := "artist".

(** [x in l] for a string [x]. *)
Definition contains (l : list string) (x : string) : bool :=
  existsb (String.eqb x) l.

(** [v in l] for a Python value [v] and a list [l] of strings: only a string
    is equal to a string. *)
Definition value_in (l : list string) (v : json) : bool :=
  match v with
  | JStr s => contains l s
  | _ => false
  end.

(** [isinstance(v, bool)]. *)
Definition isinstance_bool (v : json) : bool :=
  match v with
  | JBool _ => true
  | _ => false
  end.

Definition is_None (v : json) : bool :=
  match v with
  | JNull => true
  | _ => false
  end.

Definition _job_exists (dataset : string) : M bool :=
  rows <- Sql.select_jobs
            (fun j => String.eqb (dataset_id j) dataset
                      && contains [STATUS_PENDING; STATUS_RUNNING] (status j)) ;;
  ret (Nat.ltb 0 (List.length rows)).

Definition job_exists (dataset : string) : M bool :=
  begin (_job_exists dataset).

(** The memo of [validate_dataset]: a dict from recording to [True]. *)
Definition memo : Type := list (string * bool).

Definition memo_get (m : memo) (key : string) : option bool :=
  match find (fun kv => String.eqb (fst kv) key) m with
  | Some kv => Some (snd kv)
  | None => None
  end.

Definition memo_set (m : memo) (key : string) (v : bool) : memo :=
  (key, v) :: filter (fun kv => negb (String.eqb (fst kv) key)) m.

(** [recording_mbid in rec_memo and rec_memo[recording_mbid]]. *)
Definition memo_confirmed (m : memo) (key : string) : bool :=
  match memo_get m key with
  | Some b => b
  | None => false
  end.

(** The inner loop of [validate_dataset], over the recordings of one class.
    A recording that is not a string cannot be looked up; the schema admits
    strings only. *)
Fixpoint check_recordings (recordings : list json) (rec_memo : memo)
  : M memo :=
  match recordings with
  | [] => ret rec_memo
  | JStr recording_mbid :: recordings' =>
      when (memo_confirmed rec_memo recording_mbid) pass ;;;
      n <- count_lowlevel recording_mbid ;;
      if Nat.ltb 0 n
      then check_recordings recordings' (memo_set rec_memo recording_mbid true)
      else raise (IncompleteDatasetException
                    (Message ("Can't find low-level data for recording: "
                              ++ recording_mbid)))
  | _ :: _ => raise TypeError
  end.

(** The outer loop of [validate_dataset], over the classes. *)
Fixpoint check_classes (classes : list json) (rec_memo : memo) : M memo :=
  match classes with
  | [] => ret rec_memo
  | cls :: classes' =>
      match getitem cls "recordings" with
      | Some (JArr recordings) =>
          rec_memo' <- check_recordings recordings rec_memo ;;
          check_classes classes' rec_memo'
      | Some _ => raise TypeError
      | None => raise (KeyError "recordings")
      end
  end.

Definition validate_dataset (dataset : json) : M unit :=
  match Jsonschema.validate JSON_SCHEMA_COMPLETE dataset with
  | Some e => raise (IncompleteDatasetException (SchemaViolation e))
  | None =>
      match getitem dataset "classes" with
      | Some (JArr classes) => check_classes classes [] ;;; ret tt
      | Some _ => raise TypeError
      | None => raise (KeyError "classes")
      end
  end.

Definition _create_job (dataset : string) (normalize filter_type : json)
  : M uuid :=
  if negb (isinstance_bool normalize)
  then raise (ValueError "Argument 'normalize' must be a boolean.")
  else if negb (is_None filter_type)
          && negb (value_in [FILTER_ARTIST] filter_type)
  then raise (ValueError "Incorrect 'filter_type'. See module documentation.")
  else Sql.insert_job dataset STATUS_PENDING
         (Json.dumps (JObj [("normalize", normalize);
                            ("filter_type", filter_type)])).

Definition evaluate_dataset (dataset : string) (normalize filter_type : json)
  : M uuid :=
  begin (
    exists_ <- _job_exists dataset ;;
    if exists_ then raise JobExistsException
    else
      document <- dataset_get dataset ;;
      validate_dataset document ;;;
      _create_job dataset normalize filter_type).

Definition get_next_pending_job : M (option Job) :=
  connect (
    rows <- Sql.select_jobs (fun j => String.eqb (status j) STATUS_PENDING) ;;
    ret (Sql.fetchone (Sql.limit 1 (Sql.order_by_created rows)))).

Definition get_job (id : uuid) : M (option Job) :=
  connect (
    rows <- Sql.select_jobs (fun j => Nat.eqb (job_id j) id) ;;
    ret (Sql.fetchone rows)).

Definition get_jobs_for_dataset (dataset : string) : M (list Job) :=
  connect (
    rows <- Sql.select_jobs (fun j => String.eqb (dataset_id j) dataset) ;;
    ret (Sql.order_by_created rows)).

Definition set_result (r : option json) (now : nat) (j : Job) : Job :=
  mkJob (job_id j) (dataset_id j) (status j) (status_msg j) r
        (options j) (created j) now.

Definition set_job_result (id : uuid) (r : json) : M unit :=
  begin (
    parameter <- Sql.first_parameter r ;;
    stored <- Sql.bind_json parameter ;;
    Sql.update_jobs (set_result stored) (fun j => Nat.eqb (job_id j) id)).

Definition set_status (s : string) (msg : option string) (now : nat) (j : Job)
  : Job :=
  mkJob (job_id j) (dataset_id j) s msg (result j) (options j) (created j) now.

Definition set_job_status (id : uuid) (s : string) (msg : option string)
  : M unit :=
  if negb (contains [STATUS_PENDING; STATUS_RUNNING; STATUS_DONE; STATUS_FAILED]
                    s)
  then raise IncorrectJobStatusException
  else begin (Sql.update_jobs (set_status s msg)
                              (fun j => Nat.eqb (job_id j) id)).

Definition get_dataset_snapshot (id : uuid) : M (option Snapshot) :=
  connect (
    rows <- Sql.select_snapshots (fun r => Nat.eqb (snapshot_id r) id) ;;
    ret (Sql.fetchone rows)).

Definition add_dataset_snapshot (d : json) : M uuid :=
  connect (
    parameter <- Sql.only_parameter d ;;
    stored <- Sql.bind_json parameter ;;
    Sql.insert_snapshot (match stored with
                         | Some v => v
                         | None => JNull
                         end)).

(** ** Properties of worlds and documents *)

(** A job is active when it is pending or running. *)
Definition active (j : Job) : bool :=
  contains [STATUS_PENDING; STATUS_RUNNING] (status j).

Definition active_jobs (dataset : string) (jobs : list Job) : list Job :=
  filter (fun j => String.eqb (dataset_id j) dataset && active j) jobs.

(** The queue invariant: no dataset has two active jobs. *)
Definition at_most_one_active (w : World) : Prop :=
  forall dataset,
    List.length (active_jobs dataset (dataset_eval_jobs w)) <= 1.

Definition at_most_one_activeb (w : World) : bool :=
  forallb (fun j => Nat.leb (List.length (active_jobs (dataset_id j)
                                            (dataset_eval_jobs w))) 1)
          (dataset_eval_jobs w).

(** The dataset has no pending and no running job. *)
Definition no_active_job (w : World) (dataset : string) : Prop :=
  forall j, In j (dataset_eval_jobs w) -> dataset_id j = dataset
            -> status j <> STATUS_PENDING /\ status j <> STATUS_RUNNING.

(** The primary key of [dataset_eval_jobs]. *)
Definition unique_ids (w : World) : Prop :=
  NoDup (map job_id (dataset_eval_jobs w)).

(** Every stored id came out of the generator. *)
Definition ids_generated (w : World) : Prop :=
  Forall (fun j => job_id j < uuid_seed w) (dataset_eval_jobs w)
  /\ Forall (fun s => snapshot_id s < uuid_seed w) (dataset_snapshot w).

(** The recordings a document references, in the order in which
    [validate_dataset] iterates over them. *)
Definition mbids_of (recordings : list json) : list string :=
  flat_map (fun r => match r with JStr s => [s] | _ => [] end) recordings.

Definition class_recordings (cls : json) : list string :=
  match getitem cls "recordings" with
  | Some (JArr recordings) => mbids_of recordings
  | _ => []
  end.

Definition referenced_recordings (dataset : json) : list string :=
  match getitem dataset "classes" with
  | Some (JArr classes) => flat_map class_recordings classes
  | _ => []
  end.

(** What the loops of [validate_dataset] rely on: a class holds a list of
    recording ids. *)
Definition class_shaped (cls : json) : Prop :=
  exists mbids : list string,
    getitem cls "recordings" = Some (JArr (map JStr mbids)).

Definition has_lowlevel (w : World) (mbid : string) : Prop :=
  0 < count_occ string_dec (lowlevel w) mbid.

(** What the loops of [validate_dataset] do from the outside, for the
    recordings in iteration order: the recordings that are looked up, and the
    recording at which the loops stop, if any. *)
Fixpoint scan (table : list string) (mbids : list string)
  : list string * option string :=
  match mbids with
  | [] => ([], None)
  | mbid :: mbids' =>
      if Nat.ltb 0 (count_occ string_dec table mbid)
      then (mbid :: fst (scan table mbids'), snd (scan table mbids'))
      else ([mbid], Some mbid)
  end.

(** The memo after the given recordings were confirmed. *)
Definition memo_after (m : memo) (mbids : list string) : memo :=
  fold_left (fun m mbid => memo_set m mbid true) mbids m.

Definition missing (mbid : string) : exn :=
  IncompleteDatasetException
    (Message ("Can't find low-level data for recording: " ++ mbid)).

Definition valid_status (s : string) : Prop :=
  In s [STATUS_PENDING; STATUS_RUNNING; STATUS_DONE; STATUS_FAILED].

(** The option arguments [_create_job] accepts. *)
Definition valid_options (normalize filter_type : json) : Prop :=
  (exists b, normalize = JBool b)
  /\ (filter_type = JNull \/ filter_type = JStr FILTER_ARTIST).

(** The job that [_create_job] inserts. *)
Definition new_job (w : World) (dataset : string) (normalize filter_type : json)
  : Job :=
  mkJob (uuid_seed w) dataset STATUS_PENDING None None
        (Json.dumps (JObj [("normalize", normalize);
                           ("filter_type", filter_type)]))
        (current_timestamp w) (current_timestamp w).

(** ** Sample data *)

Module Sample.

Definition cls (name : string) (recordings : list string) : json :=
  JObj [("name", JStr name);
        ("description", JNull);
        ("recordings", JArr (map JStr recordings))].

(** Two classes that share the recording [r1]. *)
Definition genres : json :=
  JObj [("name", JStr "genres");
        ("description", JStr "rock against jazz");
        ("classes", JArr [cls "rock" ["r1"; "r2"]; cls "jazz" ["r1"; "r3"]])].

(** A class without recordings. *)
Definition draft : json :=
  JObj [("name", JStr "draft");
        ("description", JNull);
        ("classes", JArr [cls "rock" ["r1"]; cls "jazz" []])].

(** No classes at all. *)
Definition bare : json :=
  JObj [("name", JStr "bare"); ("description", JNull); ("classes", JArr [])].

(** [r4] has no low-level data. *)
Definition moods : json :=
  JObj [("name", JStr "moods");
        ("description", JNull);
        ("classes", JArr [cls "happy" ["r1"; "r4"]; cls "sad" ["r5"; "r2"]])].

(** A reader for the JSON texts that the examples write. *)
Definition score : string := Json.dumps (JObj [("score", JNum 87)]).

Definition known_texts (text : string) : option json :=
  Json.assoc text
    [("null", JNull);
     ("{}", JObj []);
     ("[1, null]", JArr [JNum 1; JNull]);
     (score, JObj [("score", JNum 87)]);
     (Json.dumps genres, genres)].

Definition fresh : World :=
  mkWorld [] []
          [("abc", genres); ("def", draft); ("ghi", bare); ("jkl", moods)]
          ["r1"; "r2"; "r2"; "r3"]
          100 0 [] known_texts.

(** [abc] has been queued. *)
Definition queued : World :=
  snd (evaluate_dataset "abc" (JBool true) JNull fresh).

(** The job of [abc] has finished and [abc] has been queued again. *)
Definition requeued : World :=
  snd (evaluate_dataset "abc" (JBool false) (JStr "artist")
         (snd (set_job_status 0 STATUS_DONE None queued))).

(** Jobs for [abc] and [ghi] created at different times, stored out of
    order. *)
Definition backlog : World :=
  mkWorld [mkJob 0 "abc" "done" None None "{}" 7 9;
           mkJob 1 "ghi" "pending" None None "{}" 8 8;
           mkJob 2 "abc" "pending" None None "{}" 5 5;
           mkJob 3 "jkl" "running" None None "{}" 3 4]
          [mkSnapshot 4 (JArr [JNum 1; JNull])]
          [("abc", genres); ("def", draft); ("ghi", bare); ("jkl", moods)]
          ["r1"; "r2"; "r3"]
          100 5 [] known_texts.

(** [moods] has a running job although it references a recording without
    low-level data. *)
Definition moods_running : World :=
  with_jobs [mkJob 0 "jkl" STATUS_RUNNING None None "{}" 1 2] fresh.

End Sample.

(** ** Orders and views used in the statements *)

(** [ORDER BY created ASC], as a relation between rows. *)
Definition created_before (a b : Job) : Prop := created a <= created b.

(** The rows an [UPDATE ... WHERE id = ...] produces. *)
Definition updated_rows (set : Job -> Job) (id : uuid) (jobs : list Job)
  : list Job :=
  map (fun j => if Nat.eqb (job_id j) id then set j else j) jobs.

Example dumps_options :
  Json.dumps (JObj [("normalize", JBool true); ("filter_type", JNull)])
  = String "{" (Json.quote "normalize" ++ ": true, "
                ++ Json.quote "filter_type" ++ ": null}").
Proof. reflexivity. Qed.

Example queued_jobs :
  dataset_eval_jobs Sample.queued
  = [mkJob 0 "abc" "pending" None None
       (Json.dumps (JObj [("normalize", JBool true); ("filter_type", JNull)]))
       100 100]
  /\ lowlevel_calls Sample.queued = ["r1"; "r2"; "r1"; "r3"].
Proof. split; reflexivity. Qed.

Example requeued_statuses :
  map (fun j => (job_id j, status j)) (dataset_eval_jobs Sample.requeued)
  = [(0, "done"); (1, "pending")].
Proof. reflexivity. Qed.

Example draft_rejected :
  fst (evaluate_dataset "def" (JBool true) JNull Sample.fresh)
  = Raise (IncompleteDatasetException
             (SchemaViolation (TooShort (JArr []) 1))).
Proof. reflexivity. Qed.

(** ** Basic facts *)

Lemma contains_In (l : list string) (x : string) :
  contains l x = true <-> In x l.
Proof.
  unfold contains. rewrite existsb_exists. split.
  - intros [y [Hy Heq]]. apply String.eqb_eq in Heq. subst. exact Hy.
  - intros H. exists x. split; [exact H | apply String.eqb_refl].
Qed.

Lemma with_jobs_same (w : World) : with_jobs (dataset_eval_jobs w) w = w.
Proof. destruct w; reflexivity. Qed.

Lemma with_calls_same (w : World) : with_calls (lowlevel_calls w) w = w.
Proof. destruct w; reflexivity. Qed.

Lemma active_status (j : Job) :
  active j = true <-> status j = STATUS_PENDING \/ status j = STATUS_RUNNING.
Proof.
  unfold active. rewrite contains_In. simpl. intuition congruence.
Qed.

Lemma active_jobs_In (dataset : string) (jobs : list Job) (j : Job) :
  In j (active_jobs dataset jobs)
  <-> In j jobs /\ dataset_id j = dataset /\ active j = true.
Proof.
  unfold active_jobs. rewrite filter_In, andb_true_iff, String.eqb_eq.
  reflexivity.
Qed.

Lemma _job_exists_eq (dataset : string) (w : World) :
  _job_exists dataset w
  = (Return (Nat.ltb 0 (List.length
                          (active_jobs dataset (dataset_eval_jobs w)))), w).
Proof. reflexivity. Qed.

Lemma _job_exists_true (dataset : string) (w : World) :
  (exists j, In j (dataset_eval_jobs w) /\ dataset_id j = dataset
             /\ active j = true)
  -> _job_exists dataset w = (Return true, w).
Proof.
  intros [j Hj]. rewrite _job_exists_eq.
  apply active_jobs_In in Hj.
  destruct (active_jobs dataset (dataset_eval_jobs w)); [destruct Hj|].
  reflexivity.
Qed.

Lemma _job_exists_false (dataset : string) (w : World) :
  active_jobs dataset (dataset_eval_jobs w) = []
  -> _job_exists dataset w = (Return false, w).
Proof. intros H. rewrite _job_exists_eq, H. reflexivity. Qed.

Lemma update_untouched (set : nat -> Job -> Job) (id : uuid) (now : nat)
      (jobs : list Job) :
  (forall j, In j jobs -> job_id j <> id)
  -> map (fun j => if Nat.eqb (job_id j) id then set now j else j) jobs = jobs.
Proof.
  induction jobs as [|j jobs IH]; intros H; simpl; [reflexivity|].
  rewrite IH by (intros j' Hj'; apply H; right; exact Hj').
  destruct (Nat.eqb_spec (job_id j) id) as [E|E]; [|reflexivity].
  exfalso. apply (H j); [left; reflexivity | exact E].
Qed.

(** ** The status check of [set_job_status] *)

(** C6: a status outside {pending, running, done, failed} makes
    [set_job_status] raise [IncorrectJobStatusException], and nothing at all
    is changed: every job row keeps every field, [status_msg] and [updated]
    included. *)
Theorem set_job_status_rejects_unknown_status
        (id : uuid) (s : string) (msg : option string) (w : World) :
  ~ valid_status s
  -> set_job_status id s msg w = (Raise IncorrectJobStatusException, w).
Proof.
  intros H. unfold set_job_status.
  destruct (contains _ s) eqn:E; [|reflexivity].
  apply contains_In in E. contradiction.
Qed.

Lemma set_job_status_rejects_unknown_status_witness :
  ~ valid_status "bogus"
  /\ set_job_status 2 "bogus" (Some "oops") Sample.backlog
     = (Raise IncorrectJobStatusException, Sample.backlog).
Proof.
  assert (H : ~ valid_status "bogus").
  { unfold valid_status. simpl. intuition discriminate. }
  split; [exact H|].
  apply (set_job_status_rejects_unknown_status 2 "bogus" (Some "oops")
           Sample.backlog H).
Defined.

(** ** What [set_job_result] does with its argument *)

Lemma set_job_result_null (id : uuid) (w : World) :
  set_job_result id JNull w
  = (Return tt,
     with_jobs (updated_rows (set_result None (current_timestamp w)) id
                  (dataset_eval_jobs w)) w).
Proof. reflexivity. Qed.

Lemma set_job_result_text (id : uuid) (text : string) (v : json)
      (w : World) :
  json_in w text = Some v
  -> set_job_result id (JStr text) w
     = (Return tt,
        with_jobs (updated_rows (set_result (Some v) (current_timestamp w)) id
                     (dataset_eval_jobs w)) w).
Proof.
  intros H. unfold set_job_result, begin, bind, Sql.first_parameter, ret,
              Sql.bind_json.
  rewrite H. reflexivity.
Qed.

Lemma set_job_result_dict (id : uuid) (m : list (string * json))
      (w : World) :
  set_job_result id (JObj m) w = (Raise TypeError, w).
Proof. destruct w; reflexivity. Qed.

(** Whatever its argument, [set_job_result] either raises and leaves the
    world as it was, or rewrites the result and [updated] of the rows with
    the given id. *)
Lemma set_job_result_cases (id : uuid) (r : json) (w : World) :
  (exists e, set_job_result id r w = (Raise e, w))
  \/ (exists stored,
         set_job_result id r w
         = (Return tt,
            with_jobs (updated_rows (set_result stored (current_timestamp w))
                         id (dataset_eval_jobs w)) w)).
Proof.
  destruct r as [| b | z | text | l | m].
  - right. exists None. reflexivity.
  - left. exists ProgrammingError. destruct w; reflexivity.
  - left. exists ProgrammingError. destruct w; reflexivity.
  - destruct (json_in w text) as [v|] eqn:E.
    + right. exists (Some v). apply set_job_result_text. exact E.
    + left. exists DataError.
      unfold set_job_result, begin, bind, Sql.first_parameter, ret,
        Sql.bind_json.
      rewrite E. destruct w; reflexivity.
  - left. exists TypeError. destruct w; reflexivity.
  - left. exists TypeError. apply set_job_result_dict.
Qed.

(** ** Updates of a job that does not exist *)

(** C7, as the code has it: when no job has the given id, [set_job_status]
    with a valid status returns without raising and leaves the world, hence
    the whole job table, as it was; so does [set_job_result] when its result
    is [None] or a JSON text that the database accepts.  With a dict as
    result, [set_job_result] raises [TypeError], the world being left as it
    was all the same. *)
Theorem updates_of_missing_job_are_noops (w : World) (id : uuid) :
  (forall j, In j (dataset_eval_jobs w) -> job_id j <> id)
  -> (forall s msg, valid_status s
                    -> set_job_status id s msg w = (Return tt, w))
     /\ set_job_result id JNull w = (Return tt, w)
     /\ (forall text v,
            json_in w text = Some v
            -> set_job_result id (JStr text) w = (Return tt, w))
     /\ (forall m, set_job_result id (JObj m) w = (Raise TypeError, w)).
Proof.
  intros H.
  assert (Hsame : forall set,
             with_jobs (updated_rows (set (current_timestamp w)) id
                          (dataset_eval_jobs w)) w = w).
  { intros set. unfold updated_rows.
    rewrite (update_untouched set id (current_timestamp w)) by exact H.
    apply with_jobs_same. }
  split; [|split; [|split]].
  - intros s msg Hs. unfold set_job_status.
    apply contains_In in Hs. rewrite Hs. simpl.
    unfold begin, Sql.update_jobs.
    rewrite update_untouched by exact H.
    rewrite with_jobs_same. reflexivity.
  - rewrite set_job_result_null.
    rewrite (Hsame (set_result None)). reflexivity.
  - intros text v Hv. rewrite (set_job_result_text _ _ _ _ Hv).
    rewrite (Hsame (set_result (Some v))). reflexivity.
  - intros m. apply set_job_result_dict.
Qed.

Lemma backlog_has_no_job_9 :
  forall j, In j (dataset_eval_jobs Sample.backlog) -> job_id j <> 9.
Proof.
  simpl. intros j Hj.
  repeat (destruct Hj as [Hj|Hj]; [subst j; simpl; lia|]).
  destruct Hj.
Defined.

Lemma updates_of_missing_job_are_noops_witness :
  (forall j, In j (dataset_eval_jobs Sample.backlog) -> job_id j <> 9)
  /\ set_job_status 9 STATUS_RUNNING None Sample.backlog
     = (Return tt, Sample.backlog)
  /\ set_job_result 9 JNull Sample.backlog = (Return tt, Sample.backlog)
  /\ set_job_result 9 (JStr Sample.score) Sample.backlog
     = (Return tt, Sample.backlog).
Proof.
  split; [exact backlog_has_no_job_9|].
  destruct (updates_of_missing_job_are_noops
              Sample.backlog 9 backlog_has_no_job_9)
    as [Hs [Hnull [Htext _]]].
  split; [|split].
  - apply Hs. unfold valid_status. simpl. auto.
  - exact Hnull.
  - apply (Htext Sample.score (JObj [("score", JNum 87)])). reflexivity.
Defined.

(** C7, as the claim has it, fails: no job has the id 9, and
    [set_job_result] with a dict as result raises all the same. *)
Lemma set_job_result_of_missing_job_raises :
  (forall j, In j (dataset_eval_jobs Sample.backlog) -> job_id j <> 9)
  /\ set_job_result 9 (JObj [("score", JNum 87)]) Sample.backlog
     = (Raise TypeError, Sample.backlog)
  /\ set_job_result 9 (JObj [("score", JNum 87)]) Sample.backlog
     <> (Return tt, Sample.backlog).
Proof.
  split; [exact backlog_has_no_job_9|].
  split; [reflexivity | discriminate].
Qed.

(** ** The duplicate guard *)

Lemma evaluate_dataset_guarded
      (w : World) (dataset : string) (normalize filter_type : json) :
  (exists j, In j (dataset_eval_jobs w)
             /\ dataset_id j = dataset
             /\ (status j = STATUS_PENDING \/ status j = STATUS_RUNNING))
  -> evaluate_dataset dataset normalize filter_type w
     = (Raise JobExistsException, w).
Proof.
  intros [j [Hin [Hd Hs]]].
  unfold evaluate_dataset, begin, bind.
  rewrite _job_exists_true.
  - destruct w; reflexivity.
  - exists j. rewrite active_status. auto.
Qed.

(** C3: when the dataset already has a pending or running job,
    [evaluate_dataset] raises [JobExistsException] and the world is left as
    it was: no job is created, and neither the dataset document nor any
    recording is looked at.  The statement holds for every world, so also for
    those in which the dataset document would fail validation. *)
Theorem evaluate_dataset_duplicate_guard
        (w : World) (dataset : string) (normalize filter_type : json) :
  (exists j, In j (dataset_eval_jobs w)
             /\ dataset_id j = dataset
             /\ (status j = STATUS_PENDING \/ status j = STATUS_RUNNING))
  -> evaluate_dataset dataset normalize filter_type w
     = (Raise JobExistsException, w).
Proof.
  apply evaluate_dataset_guarded.
Qed.

Lemma evaluate_dataset_duplicate_guard_witness :
  fst (validate_dataset Sample.moods Sample.moods_running)
  = Raise (IncompleteDatasetException
             (Message "Can't find low-level data for recording: r4"))
  /\ evaluate_dataset "jkl" (JBool true) JNull Sample.moods_running
     = (Raise JobExistsException, Sample.moods_running).
Proof.
  split; [reflexivity|].
  apply (evaluate_dataset_duplicate_guard Sample.moods_running "jkl").
  exists (mkJob 0 "jkl" STATUS_RUNNING None None "{}" 1 2).
  simpl. auto.
Defined.

(** ** The oldest pending job *)

Lemma insert_by_created_hd (j : Job) (sorted : list Job) :
  hd_error (Sql.insert_by_created j sorted)
  = match hd_error sorted with
    | None => Some j
    | Some h => if Nat.leb (created j) (created h) then Some j else Some h
    end.
Proof.
  destruct sorted as [|h sorted]; simpl; [reflexivity|].
  destruct (Nat.leb (created j) (created h)); reflexivity.
Qed.

Lemma order_by_created_hd_none (rows : list Job) :
  hd_error (Sql.order_by_created rows) = None -> rows = [].
Proof.
  destruct rows as [|j rows]; [reflexivity|].
  unfold Sql.order_by_created. simpl. rewrite insert_by_created_hd.
  destruct (hd_error _) as [h|]; [|discriminate].
  destruct (Nat.leb _ _); discriminate.
Qed.

Lemma order_by_created_hd_least (rows : list Job) (j : Job) :
  hd_error (Sql.order_by_created rows) = Some j
  -> In j rows /\ forall j', In j' rows -> created j <= created j'.
Proof.
  revert j. induction rows as [|a rows IH]; intros j; [discriminate|].
  unfold Sql.order_by_created. simpl. rewrite insert_by_created_hd.
  fold (Sql.order_by_created rows).
  destruct (hd_error (Sql.order_by_created rows)) as [h|] eqn:Eh.
  - destruct (IH h eq_refl) as [Hin Hle].
    destruct (Nat.leb_spec (created a) (created h)) as [L|L];
      intros E; injection E as <-.
    + split; [left; reflexivity|].
      intros j' [<-|Hj']; [lia|]. specialize (Hle j' Hj'). lia.
    + split; [right; exact Hin|].
      intros j' [<-|Hj']; [lia|]. apply Hle. exact Hj'.
  - apply order_by_created_hd_none in Eh. subst rows.
    intros E; injection E as <-.
    split; [left; reflexivity|].
    intros j' [<-|[]]. lia.
Qed.

Lemma fetchone_limit_1 {A : Type} (rows : list A) :
  Sql.fetchone (Sql.limit 1 rows) = hd_error rows.
Proof. destruct rows; reflexivity. Qed.

(** C8: [get_next_pending_job] returns a pending job whose [created] is
    least among the pending jobs, or [None] when no job is pending, and it
    leaves the world untouched; in particular the job it returns is still
    pending afterwards. *)
Theorem get_next_pending_job_oldest (w : World) :
  exists r,
    get_next_pending_job w = (Return r, w)
    /\ match r with
       | Some j =>
           In j (dataset_eval_jobs w)
           /\ status j = STATUS_PENDING
           /\ forall j', In j' (dataset_eval_jobs w)
                         -> status j' = STATUS_PENDING
                         -> created j <= created j'
       | None =>
           forall j, In j (dataset_eval_jobs w) -> status j <> STATUS_PENDING
       end.
Proof.
  unfold get_next_pending_job, connect, bind, Sql.select_jobs, ret.
  rewrite fetchone_limit_1.
  set (pending := filter _ (dataset_eval_jobs w)).
  exists (hd_error (Sql.order_by_created pending)).
  split; [reflexivity|].
  destruct (hd_error (Sql.order_by_created pending)) as [j|] eqn:E.
  - apply order_by_created_hd_least in E. destruct E as [Hin Hle].
    unfold pending in Hin. apply filter_In in Hin.
    destruct Hin as [Hin Hs]. apply String.eqb_eq in Hs.
    repeat split; [exact Hin | exact Hs |].
    intros j' Hj' Hs'. apply Hle. unfold pending. apply filter_In.
    split; [exact Hj' | apply String.eqb_eq; exact Hs'].
  - apply order_by_created_hd_none in E.
    intros j Hj Hs.
    assert (Hp : In j pending).
    { unfold pending. apply filter_In.
      split; [exact Hj | apply String.eqb_eq; exact Hs]. }
    rewrite E in Hp. destruct Hp.
Qed.

Example next_pending_in_backlog :
  get_next_pending_job Sample.backlog
  = (Return (Some (mkJob 2 "abc" "pending" None None "{}" 5 5)),
     Sample.backlog).
Proof. reflexivity. Qed.

Example next_pending_when_none :
  get_next_pending_job Sample.moods_running = (Return None, Sample.moods_running).
Proof. reflexivity. Qed.

(** ** Snapshots *)

Lemma filter_nothing {A : Type} (f : A -> bool) (l : list A) :
  (forall x, In x l -> f x = false) -> filter f l = [].
Proof.
  induction l as [|x l IH]; intros H; simpl; [reflexivity|].
  rewrite (H x) by (left; reflexivity).
  apply IH. intros y Hy. apply H. right. exact Hy.
Qed.

Lemma add_dataset_snapshot_null (w : World) :
  add_dataset_snapshot JNull w
  = (Return (uuid_seed w),
     with_snapshots
       (dataset_snapshot w ++ [mkSnapshot (uuid_seed w) JNull])%list
       (with_seed (S (uuid_seed w)) w)).
Proof. reflexivity. Qed.

Lemma add_dataset_snapshot_text (text : string) (v : json) (w : World) :
  json_in w text = Some v
  -> add_dataset_snapshot (JStr text) w
     = (Return (uuid_seed w),
        with_snapshots
          (dataset_snapshot w ++ [mkSnapshot (uuid_seed w) v])%list
          (with_seed (S (uuid_seed w)) w)).
Proof.
  intros H. unfold add_dataset_snapshot, connect, bind, Sql.only_parameter,
              ret, Sql.bind_json.
  rewrite H. reflexivity.
Qed.

Lemma add_dataset_snapshot_dict (m : list (string * json)) (w : World) :
  add_dataset_snapshot (JObj m) w = (Raise TypeError, w).
Proof. reflexivity. Qed.

(** A snapshot inserted under the next generated id is found under it. *)
Lemma get_inserted_snapshot (v : json) (w : World) :
  ids_generated w
  -> let w' := with_snapshots
                 (dataset_snapshot w ++ [mkSnapshot (uuid_seed w) v])%list
                 (with_seed (S (uuid_seed w)) w) in
     get_dataset_snapshot (uuid_seed w) w'
     = (Return (Some (mkSnapshot (uuid_seed w) v)), w').
Proof.
  intros [_ Hgen]. cbv zeta.
  unfold get_dataset_snapshot, connect, bind, Sql.select_snapshots, ret.
  simpl. rewrite filter_app. rewrite filter_nothing.
  - simpl. rewrite Nat.eqb_refl. reflexivity.
  - intros s Hs. apply Nat.eqb_neq.
    rewrite Forall_forall in Hgen. specialize (Hgen s Hs). lia.
Qed.

(** C9, as the code has it: [add_dataset_snapshot None] returns a generated
    id under which [get_dataset_snapshot] then finds a row with that id and
    [None] as its data.  For a JSON text that the database accepts it
    returns a generated id under which the row holds the value that the text
    stands for, not the text.  For a dict it raises [TypeError] and stores
    nothing.  Under an id that no stored snapshot has,
    [get_dataset_snapshot] returns [None]. *)
Theorem snapshot_round_trip :
  (forall (w : World),
      ids_generated w
      -> exists i w',
        add_dataset_snapshot JNull w = (Return i, w')
        /\ get_dataset_snapshot i w'
           = (Return (Some (mkSnapshot i JNull)), w'))
  /\ (forall (w : World) (text : string) (v : json),
         ids_generated w
         -> json_in w text = Some v
         -> exists i w',
           add_dataset_snapshot (JStr text) w = (Return i, w')
           /\ get_dataset_snapshot i w'
              = (Return (Some (mkSnapshot i v)), w'))
  /\ (forall (w : World) (m : list (string * json)),
         add_dataset_snapshot (JObj m) w = (Raise TypeError, w))
  /\ (forall (w : World) (i : uuid),
         (forall s, In s (dataset_snapshot w) -> snapshot_id s <> i)
         -> get_dataset_snapshot i w = (Return None, w)).
Proof.
  split; [|split; [|split]].
  - intros w Hgen. eexists. eexists.
    split; [apply add_dataset_snapshot_null|].
    apply (get_inserted_snapshot JNull w Hgen).
  - intros w text v Hgen Hv. eexists. eexists.
    split; [apply (add_dataset_snapshot_text _ _ _ Hv)|].
    apply (get_inserted_snapshot v w Hgen).
  - intros w m. apply add_dataset_snapshot_dict.
  - intros w i H.
    unfold get_dataset_snapshot, connect, bind, Sql.select_snapshots, ret.
    rewrite filter_nothing; [reflexivity|].
    intros s Hs. apply Nat.eqb_neq. apply H. exact Hs.
Qed.

Lemma backlog_ids_generated : ids_generated Sample.backlog.
Proof.
  split; simpl; repeat constructor.
Defined.

Lemma snapshot_round_trip_witness :
  ids_generated Sample.backlog
  /\ (exists i w',
         add_dataset_snapshot JNull Sample.backlog = (Return i, w')
         /\ get_dataset_snapshot i w'
            = (Return (Some (mkSnapshot i JNull)), w'))
  /\ (exists i w',
         add_dataset_snapshot (JStr (Json.dumps Sample.genres)) Sample.backlog
         = (Return i, w')
         /\ get_dataset_snapshot i w'
            = (Return (Some (mkSnapshot i Sample.genres)), w'))
  /\ get_dataset_snapshot 7 Sample.backlog = (Return None, Sample.backlog).
Proof.
  split; [exact backlog_ids_generated|].
  destruct snapshot_round_trip as [Hnull [Htext [_ Hget]]].
  split; [|split].
  - apply (Hnull Sample.backlog backlog_ids_generated).
  - apply (Htext Sample.backlog (Json.dumps Sample.genres) Sample.genres
             backlog_ids_generated).
    reflexivity.
  - apply (Hget Sample.backlog 7).
    simpl. intros s [<-|[]]. simpl. lia.
Defined.

(** C9, as the claim has it, fails: a dict is refused with [TypeError], and
    for a JSON text the row does not hold the argument but the value that
    the text stands for. *)
Lemma snapshot_of_dict_is_refused :
  ids_generated Sample.backlog
  /\ add_dataset_snapshot Sample.genres Sample.backlog
     = (Raise TypeError, Sample.backlog)
  /\ (forall i w',
         add_dataset_snapshot Sample.genres Sample.backlog <> (Return i, w'))
  /\ (let w' := snd (add_dataset_snapshot (JStr "[1, null]")
                       Sample.backlog) in
      fst (add_dataset_snapshot (JStr "[1, null]") Sample.backlog) = Return 5
      /\ fst (get_dataset_snapshot 5 w')
         = Return (Some (mkSnapshot 5 (JArr [JNum 1; JNull])))
      /\ JArr [JNum 1; JNull] <> JStr "[1, null]").
Proof.
  split; [exact backlog_ids_generated|].
  split; [reflexivity|].
  split; [intros i w' H; discriminate H|].
  cbv zeta. split; [reflexivity|]. split; [reflexivity | discriminate].
Qed.

Example snapshot_of_backlog :
  get_dataset_snapshot 4 Sample.backlog
  = (Return (Some (mkSnapshot 4 (JArr [JNum 1; JNull]))), Sample.backlog).
Proof. reflexivity. Qed.

(** ** What a valid document looks like *)

Lemma orelse_none (a b : option ValidationError) :
  Jsonschema.orelse a b = None -> a = None /\ b = None.
Proof. destruct a; simpl; [discriminate | auto]. Qed.

Lemma first_error_none {A : Type} (f : A -> option ValidationError)
      (l : list A) :
  Jsonschema.first_error f l = None -> Forall (fun x => f x = None) l.
Proof.
  induction l as [|x l IH]; simpl; intros H; [constructor|].
  destruct (f x) eqn:E; [discriminate|]. constructor; auto.
Qed.

Lemma validate_keywords
      (types : list json_type) (properties : list (string * schema))
      (required : list string) (items : option schema) (least : nat)
      (v : json) :
  Jsonschema.validate (Schema types properties required items least) v = None
  -> Jsonschema.check_type types v = None
     /\ Jsonschema.check_required required v = None
     /\ Jsonschema.check_minItems least v = None
     /\ Jsonschema.check_properties Jsonschema.validate v properties = None
     /\ Jsonschema.check_items Jsonschema.validate items v = None.
Proof.
  cbn [Jsonschema.validate]. intros H.
  repeat (apply orelse_none in H; destruct H as [? H]).
  auto.
Qed.

Lemma check_required_present (required : list string)
      (m : list (string * json)) (k : string) :
  Jsonschema.check_required required (JObj m) = None
  -> In k required -> exists x, Json.assoc k m = Some x.
Proof.
  induction required as [|k' r IH]; intros H Hk; [destruct Hk|].
  simpl in H. destruct (Json.assoc k' m) as [x|] eqn:E; [|discriminate].
  destruct Hk as [<-|Hk]; [eauto | auto].
Qed.

Lemma check_properties_member (properties : list (string * schema))
      (v x : json) (k : string) (sk : schema) :
  Jsonschema.check_properties Jsonschema.validate v properties = None
  -> In (k, sk) properties -> getitem v k = Some x
  -> Jsonschema.validate sk x = None.
Proof.
  induction properties as [|[k' sk'] ps IH]; intros H Hk Hx; [destruct Hk|].
  simpl in H. apply orelse_none in H. destruct H as [H1 H2].
  destruct Hk as [E|Hk].
  - injection E as -> ->. rewrite Hx in H1. exact H1.
  - apply IH; assumption.
Qed.

Lemma object_of_type (v : json) :
  Jsonschema.check_type [TObject] v = None -> exists m, v = JObj m.
Proof. destruct v; try discriminate. eauto. Qed.

Lemma array_of_type (v : json) :
  Jsonschema.check_type [TArray] v = None -> exists l, v = JArr l.
Proof. destruct v; try discriminate. eauto. Qed.

Lemma strings_of_schema (l : list json) :
  Forall (fun x => Jsonschema.validate string_schema x = None) l
  -> exists mbids, l = map JStr mbids.
Proof.
  induction 1 as [|x l Hx _ [mbids ->]]; [exists []; reflexivity|].
  destruct x; try discriminate Hx.
  match goal with s : string |- _ => exists (s :: mbids) end. reflexivity.
Qed.

(** A value that conforms to the schema of an array property [key], where the
    property is required. *)
Lemma required_array
      (properties : list (string * schema)) (required : list string)
      (key : string) (si : schema) (least : nat) (v : json) :
  Jsonschema.validate (Schema [TObject] properties required None 0) v = None
  -> In key required
  -> In (key, Schema [TArray] [] [] (Some si) least) properties
  -> exists l,
      getitem v key = Some (JArr l)
      /\ least <= List.length l
      /\ Forall (fun x => Jsonschema.validate si x = None) l.
Proof.
  intros H Hreq Hprop.
  apply validate_keywords in H.
  destruct H as [Ht [Hr [_ [Hp _]]]].
  apply object_of_type in Ht. destruct Ht as [m ->].
  destruct (check_required_present _ _ _ Hr Hreq) as [x Hx].
  pose proof (check_properties_member _ (JObj m) x _ _ Hp Hprop Hx) as Hv.
  apply validate_keywords in Hv.
  destruct Hv as [Ht [_ [Hmin [_ Hi]]]].
  apply array_of_type in Ht. destruct Ht as [l ->].
  exists l. split; [exact Hx|]. split.
  - simpl in Hmin.
    destruct (Nat.ltb_spec (List.length l) least); [discriminate | assumption].
  - apply first_error_none. exact Hi.
Qed.

Lemma class_schema_shape (cls : json) :
  Jsonschema.validate CLASS_SCHEMA_COMPLETE cls = None
  -> class_shaped cls /\ class_recordings cls <> [].
Proof.
  intros H.
  destruct (required_array _ _ "recordings" string_schema 1 cls H)
    as [l [Hget [Hlen Hall]]]; [simpl; auto | simpl; auto |].
  apply strings_of_schema in Hall. destruct Hall as [mbids ->].
  split; [exists mbids; exact Hget|].
  unfold class_recordings. rewrite Hget.
  destruct mbids; [simpl in Hlen; lia | discriminate].
Qed.

Lemma schema_complete_shape (dataset : json) :
  Jsonschema.validate JSON_SCHEMA_COMPLETE dataset = None
  -> exists classes,
      getitem dataset "classes" = Some (JArr classes)
      /\ Forall class_shaped classes
      /\ Forall (fun cls => class_recordings cls <> []) classes.
Proof.
  intros H.
  destruct (required_array _ _ "classes" CLASS_SCHEMA_COMPLETE 0 dataset H)
    as [classes [Hget [_ Hall]]]; [simpl; auto | simpl; auto |].
  exists classes. split; [exact Hget|].
  split; eapply Forall_impl; try exact Hall; intros cls Hcls;
    apply class_schema_shape in Hcls; tauto.
Qed.

(** ** The loops of [validate_dataset] *)

Lemma with_calls_twice (c1 c2 : list string) (w : World) :
  with_calls c2 (with_calls c1 w) = with_calls c2 w.
Proof. reflexivity. Qed.

Lemma scan_app (table a b : list string) :
  scan table (a ++ b)%list
  = match snd (scan table a) with
    | None => ((a ++ fst (scan table b))%list, snd (scan table b))
    | Some _ => scan table a
    end.
Proof.
  induction a as [|x a IH]; simpl.
  - destruct (scan table b); reflexivity.
  - destruct (Nat.ltb 0 (count_occ string_dec table x)); [|reflexivity].
    rewrite IH. destruct (scan table a) as [la [y|]]; reflexivity.
Qed.

Lemma scan_present (table mbids : list string) :
  Forall (fun mbid => 0 < count_occ string_dec table mbid) mbids
  -> scan table mbids = (mbids, None).
Proof.
  induction 1 as [|x l Hx _ IH]; simpl; [reflexivity|].
  apply Nat.ltb_lt in Hx. rewrite Hx, IH. reflexivity.
Qed.

Lemma scan_first_missing (table pre post : list string) (mbid : string) :
  Forall (fun mbid => 0 < count_occ string_dec table mbid) pre
  -> ~ 0 < count_occ string_dec table mbid
  -> scan table (pre ++ mbid :: post)%list = ((pre ++ [mbid])%list, Some mbid).
Proof.
  intros Hpre Hx. rewrite scan_app, (scan_present _ _ Hpre). simpl.
  apply Nat.ltb_nlt in Hx. rewrite Hx. reflexivity.
Qed.

(** Either every recording has low-level data, or there is a first one that
    has none. *)
Lemma first_missing_cases (table mbids : list string) :
  Forall (fun mbid => 0 < count_occ string_dec table mbid) mbids
  \/ exists pre mbid post,
      mbids = (pre ++ mbid :: post)%list
      /\ Forall (fun mbid => 0 < count_occ string_dec table mbid) pre
      /\ ~ 0 < count_occ string_dec table mbid.
Proof.
  induction mbids as [|x l IH]; [left; constructor|].
  destruct (Nat.ltb_spec 0 (count_occ string_dec table x)) as [Hx|Hx].
  - destruct IH as [IH|[pre [y [post [-> [Hpre Hy]]]]]].
    + left. constructor; assumption.
    + right. exists (x :: pre), y, post.
      split; [reflexivity|]. split; [constructor; assumption | exact Hy].
  - right. exists [], x, l. split; [reflexivity|].
    split; [constructor | lia].
Qed.

Lemma mbids_of_strings (mbids : list string) :
  mbids_of (map JStr mbids) = mbids.
Proof.
  induction mbids as [|x l IH]; [reflexivity|].
  unfold mbids_of in *. simpl. f_equal. exact IH.
Qed.

Lemma check_recordings_eq (mbids : list string) :
  forall (m : memo) (w : World),
    check_recordings (map JStr mbids) m w
    = (match snd (scan (lowlevel w) mbids) with
       | None => Return (memo_after m mbids)
       | Some mbid => Raise (missing mbid)
       end,
       with_calls (lowlevel_calls w ++ fst (scan (lowlevel w) mbids))%list w).
Proof.
  induction mbids as [|x l IH]; intros m w.
  - simpl. unfold ret. rewrite app_nil_r, with_calls_same. reflexivity.
  - cbn [map check_recordings scan].
    unfold bind at 1.
    replace (when (memo_confirmed m x) pass w) with (Return tt, w)
      by (unfold when, pass, ret; destruct (memo_confirmed m x); reflexivity).
    unfold bind at 1. unfold count_lowlevel at 1.
    destruct (Nat.ltb 0 (count_occ string_dec (lowlevel w) x)) eqn:E.
    + rewrite IH. cbn [lowlevel with_calls lowlevel_calls fst snd].
      rewrite <- app_assoc. reflexivity.
    + reflexivity.
Qed.

Lemma check_classes_eq (classes : list json) :
  Forall class_shaped classes
  -> forall (m : memo) (w : World),
    check_classes classes m w
    = (match snd (scan (lowlevel w) (flat_map class_recordings classes)) with
       | None => Return (memo_after m (flat_map class_recordings classes))
       | Some mbid => Raise (missing mbid)
       end,
       with_calls
         (lowlevel_calls w
          ++ fst (scan (lowlevel w) (flat_map class_recordings classes)))%list
         w).
Proof.
  induction 1 as [|cls classes [mbids Hcls] _ IH]; intros m w.
  - simpl. unfold ret. rewrite app_nil_r, with_calls_same. reflexivity.
  - cbn [check_classes flat_map].
    assert (Hrec : class_recordings cls = mbids).
    { unfold class_recordings. rewrite Hcls. apply mbids_of_strings. }
    rewrite Hcls, Hrec. unfold bind. rewrite check_recordings_eq, scan_app.
    assert (Hfst : snd (scan (lowlevel w) mbids) = None
                   -> fst (scan (lowlevel w) mbids) = mbids).
    { clear. induction mbids as [|x l IHl]; [reflexivity|].
      simpl. destruct (Nat.ltb 0 _); [|discriminate].
      simpl. intros E. f_equal. auto. }
    destruct (scan (lowlevel w) mbids) as [la [y|]]; [reflexivity|].
    cbn [fst snd] in *. rewrite (Hfst eq_refl), IH.
    cbn [lowlevel with_calls lowlevel_calls fst snd].
    rewrite <- app_assoc. unfold memo_after. rewrite fold_left_app.
    reflexivity.
Qed.

(** [validate_dataset], from the outside. *)
Lemma validate_dataset_eq (dataset : json) (w : World) :
  validate_dataset dataset w
  = match Jsonschema.validate JSON_SCHEMA_COMPLETE dataset with
    | Some e => (Raise (IncompleteDatasetException (SchemaViolation e)), w)
    | None =>
        (match snd (scan (lowlevel w) (referenced_recordings dataset)) with
         | None => Return tt
         | Some mbid => Raise (missing mbid)
         end,
         with_calls
           (lowlevel_calls w
            ++ fst (scan (lowlevel w) (referenced_recordings dataset)))%list
           w)
    end.
Proof.
  unfold validate_dataset.
  destruct (Jsonschema.validate JSON_SCHEMA_COMPLETE dataset) eqn:E;
    [reflexivity|].
  destruct (schema_complete_shape dataset E) as [classes [Hget [Hshape _]]].
  unfold referenced_recordings. rewrite Hget.
  unfold bind. rewrite (check_classes_eq classes Hshape).
  destruct (snd (scan _ _)); reflexivity.
Qed.

(** ** [evaluate_dataset], step by step *)

Lemma no_active_job_none (w : World) (dataset : string) :
  no_active_job w dataset
  -> active_jobs dataset (dataset_eval_jobs w) = [].
Proof.
  intros H. apply filter_nothing. intros j Hj.
  destruct (String.eqb_spec (dataset_id j) dataset) as [E|E]; [|reflexivity].
  destruct (active j) eqn:Ea; [|reflexivity].
  apply active_status in Ea. destruct (H j Hj E). tauto.
Qed.

Lemma _create_job_cases (dataset : string) (normalize filter_type : json)
      (w : World) :
  (valid_options normalize filter_type
   /\ _create_job dataset normalize filter_type w
      = (Return (uuid_seed w),
         with_jobs (dataset_eval_jobs w
                    ++ [new_job w dataset normalize filter_type])%list
                   (with_seed (S (uuid_seed w)) w)))
  \/ (~ valid_options normalize filter_type
      /\ exists msg,
        _create_job dataset normalize filter_type w
        = (Raise (ValueError msg), w)).
Proof.
  unfold _create_job, valid_options.
  destruct normalize as [| b | | | |];
    try (right; split; [intros [[b' Hb] _]; discriminate Hb
                       | eexists; reflexivity]).
  destruct filter_type as [| | | s | |];
    try (right; split; [intros [_ [Hf|Hf]]; discriminate Hf
                       | eexists; reflexivity]).
  - left. split; [split; [exists b; reflexivity | left; reflexivity]|].
    reflexivity.
  - destruct (String.eqb_spec s FILTER_ARTIST) as [->|Hs].
    + left. split; [split; [exists b; reflexivity | right; reflexivity]|].
      reflexivity.
    + right. split.
      * intros [_ [Hf|Hf]]; [discriminate Hf | injection Hf as ->; auto].
      * cbn [isinstance_bool negb is_None value_in contains existsb andb orb].
        apply String.eqb_neq in Hs. rewrite Hs. eexists. reflexivity.
Qed.

(** Past the duplicate guard, [evaluate_dataset] validates the document and
    then creates the job. *)
Lemma evaluate_dataset_eq (w : World) (dataset : string)
      (normalize filter_type document : json) :
  no_active_job w dataset
  -> Json.assoc dataset (datasets w) = Some document
  -> evaluate_dataset dataset normalize filter_type w
     = match Jsonschema.validate JSON_SCHEMA_COMPLETE document with
       | Some e =>
           (Raise (IncompleteDatasetException (SchemaViolation e)), w)
       | None =>
           let looked_up :=
             with_calls
               (lowlevel_calls w
                ++ fst (scan (lowlevel w) (referenced_recordings document)))
               w in
           match snd (scan (lowlevel w) (referenced_recordings document)) with
           | Some mbid => (Raise (missing mbid), looked_up)
           | None => _create_job dataset normalize filter_type looked_up
           end
       end.
Proof.
  intros Hnone Hdoc.
  unfold evaluate_dataset, begin, bind.
  rewrite (_job_exists_false _ _ (no_active_job_none _ _ Hnone)).
  unfold dataset_get. rewrite Hdoc, validate_dataset_eq.
  destruct (Jsonschema.validate JSON_SCHEMA_COMPLETE document).
  - destruct w; reflexivity.
  - cbv zeta.
    destruct (snd (scan (lowlevel w) (referenced_recordings document))).
    + destruct w; reflexivity.
    + destruct (_create_job_cases dataset normalize filter_type
                  (with_calls
                     (lowlevel_calls w
                      ++ fst (scan (lowlevel w)
                                (referenced_recordings document)))%list w))
        as [[_ ->]|[_ [msg ->]]]; [reflexivity|].
      destruct w; reflexivity.
Qed.

(** A document is incomplete when it violates the schema or references a
    recording without low-level data; [evaluate_dataset] then raises
    [IncompleteDatasetException] and writes nothing. *)
Lemma evaluate_dataset_rejects_incomplete (w : World) (dataset : string)
      (normalize filter_type document : json) :
  no_active_job w dataset
  -> Json.assoc dataset (datasets w) = Some document
  -> Jsonschema.validate JSON_SCHEMA_COMPLETE document <> None
     \/ (exists mbid, In mbid (referenced_recordings document)
                      /\ ~ has_lowlevel w mbid)
  -> exists detail w',
      evaluate_dataset dataset normalize filter_type w
      = (Raise (IncompleteDatasetException detail), w')
      /\ dataset_eval_jobs w' = dataset_eval_jobs w
      /\ dataset_snapshot w' = dataset_snapshot w.
Proof.
  intros Hnone Hdoc Hinc.
  rewrite (evaluate_dataset_eq _ _ _ _ _ Hnone Hdoc).
  destruct (Jsonschema.validate JSON_SCHEMA_COMPLETE document) as [e|].
  - exists (SchemaViolation e), w. auto.
  - destruct Hinc as [Hinc|[mbid [Hin Hmiss]]]; [congruence|].
    cbv zeta.
    destruct (first_missing_cases (lowlevel w)
                (referenced_recordings document))
      as [Hall|[pre [x [post [-> [Hpre Hx]]]]]].
    + rewrite Forall_forall in Hall. elim Hmiss. apply Hall. exact Hin.
    + rewrite (scan_first_missing _ _ _ _ Hpre Hx).
      eexists. eexists. split; [reflexivity|]. split; reflexivity.
Qed.

(** A complete document passes the validation: what [evaluate_dataset]
    returns is what [_create_job] returns once every referenced recording has
    been looked up. *)
Lemma evaluate_dataset_complete (w : World) (dataset : string)
      (normalize filter_type document : json) :
  no_active_job w dataset
  -> Json.assoc dataset (datasets w) = Some document
  -> Jsonschema.validate JSON_SCHEMA_COMPLETE document = None
  -> Forall (has_lowlevel w) (referenced_recordings document)
  -> evaluate_dataset dataset normalize filter_type w
     = _create_job dataset normalize filter_type
         (with_calls (lowlevel_calls w ++ referenced_recordings document)%list
                     w).
Proof.
  intros Hnone Hdoc Hvalid Hall.
  rewrite (evaluate_dataset_eq _ _ _ _ _ Hnone Hdoc), Hvalid.
  cbv zeta. rewrite (scan_present _ _ Hall). reflexivity.
Qed.

(** ** The validation gate *)

(** C4: past the duplicate guard, [evaluate_dataset] raises
    [IncompleteDatasetException] exactly when the document violates the
    complete-dataset schema or references a recording without low-level data.
    On a schema violation the exception carries the validation error and
    nothing has happened.  Otherwise the exception names the first missing
    recording in iteration order, the recordings up to and including that one
    are the only ones looked up, and the tables are as they were. *)
Theorem evaluate_dataset_incomplete (w : World) (dataset : string)
        (normalize filter_type document : json) :
  no_active_job w dataset
  -> Json.assoc dataset (datasets w) = Some document
  -> ((exists detail,
          fst (evaluate_dataset dataset normalize filter_type w)
          = Raise (IncompleteDatasetException detail))
      <-> (Jsonschema.validate JSON_SCHEMA_COMPLETE document <> None
           \/ exists mbid, In mbid (referenced_recordings document)
                           /\ ~ has_lowlevel w mbid))
     /\ (forall e,
            Jsonschema.validate JSON_SCHEMA_COMPLETE document = Some e
            -> evaluate_dataset dataset normalize filter_type w
               = (Raise (IncompleteDatasetException (SchemaViolation e)), w))
     /\ (forall pre mbid post,
            Jsonschema.validate JSON_SCHEMA_COMPLETE document = None
            -> referenced_recordings document = (pre ++ mbid :: post)%list
            -> Forall (has_lowlevel w) pre
            -> ~ has_lowlevel w mbid
            -> evaluate_dataset dataset normalize filter_type w
               = (Raise (IncompleteDatasetException
                           (Message
                              ("Can't find low-level data for recording: "
                               ++ mbid))),
                  with_calls (lowlevel_calls w ++ pre ++ [mbid])%list w)).
Proof.
  intros Hnone Hdoc. split; [split|split].
  - intros [detail Hraise].
    destruct (Jsonschema.validate JSON_SCHEMA_COMPLETE document) as [e|] eqn:E;
      [left; discriminate|].
    right.
    destruct (first_missing_cases (lowlevel w)
                (referenced_recordings document))
      as [Hall|[pre [x [post [Hrefs [Hpre Hx]]]]]].
    + exfalso.
      rewrite (evaluate_dataset_complete _ _ _ _ _ Hnone Hdoc E Hall)
        in Hraise.
      destruct (_create_job_cases dataset normalize filter_type
                  (with_calls
                     (lowlevel_calls w ++ referenced_recordings document)%list
                     w))
        as [[_ Hc]|[_ [msg Hc]]]; rewrite Hc in Hraise; discriminate.
    + exists x. split; [|exact Hx].
      rewrite Hrefs. apply in_or_app. right. left. reflexivity.
  - intros Hinc.
    destruct (evaluate_dataset_rejects_incomplete
                w dataset normalize filter_type document Hnone Hdoc Hinc)
      as [detail [w' [-> _]]].
    exists detail. reflexivity.
  - intros e E.
    rewrite (evaluate_dataset_eq _ _ _ _ _ Hnone Hdoc), E. reflexivity.
  - intros pre mbid post E Hrefs Hpre Hx.
    rewrite (evaluate_dataset_eq _ _ _ _ _ Hnone Hdoc), E, Hrefs.
    cbv zeta. rewrite (scan_first_missing _ _ _ _ Hpre Hx). reflexivity.
Qed.

Lemma fresh_no_active_job (dataset : string) :
  no_active_job Sample.fresh dataset.
Proof. intros j []. Defined.

Lemma evaluate_dataset_incomplete_witness :
  no_active_job Sample.fresh "jkl"
  /\ Json.assoc "jkl" (datasets Sample.fresh) = Some Sample.moods
  /\ referenced_recordings Sample.moods = ["r1"; "r4"; "r5"; "r2"]
  /\ evaluate_dataset "jkl" (JBool true) JNull Sample.fresh
     = (Raise (IncompleteDatasetException
                 (Message "Can't find low-level data for recording: r4")),
        with_calls ["r1"; "r4"] Sample.fresh).
Proof.
  split; [exact (fresh_no_active_job "jkl")|].
  split; [reflexivity|]. split; [reflexivity|].
  destruct (evaluate_dataset_incomplete
              Sample.fresh "jkl" (JBool true) JNull Sample.moods
              (fresh_no_active_job "jkl") eq_refl) as [_ [_ H]].
  apply (H ["r1"] "r4" ["r5"; "r2"]).
  - reflexivity.
  - reflexivity.
  - repeat constructor.
  - unfold has_lowlevel. simpl. lia.
Defined.

(** ** The option arguments *)

(** C10: the option arguments are checked last.  With arguments that
    [_create_job] does not accept, [evaluate_dataset] still raises
    [JobExistsException] when the dataset has an active job, and
    [IncompleteDatasetException] when it has none and the document is
    incomplete; only for a complete document of a dataset without an active
    job does it raise the [ValueError], and then no job row is created. *)
Theorem evaluate_dataset_checks_options_last (w : World) (dataset : string)
        (normalize filter_type : json) :
  ~ valid_options normalize filter_type
  -> ((exists j, In j (dataset_eval_jobs w)
                 /\ dataset_id j = dataset
                 /\ (status j = STATUS_PENDING \/ status j = STATUS_RUNNING))
      -> evaluate_dataset dataset normalize filter_type w
         = (Raise JobExistsException, w))
     /\ (forall document,
            no_active_job w dataset
            -> Json.assoc dataset (datasets w) = Some document
            -> Jsonschema.validate JSON_SCHEMA_COMPLETE document <> None
               \/ (exists mbid, In mbid (referenced_recordings document)
                                /\ ~ has_lowlevel w mbid)
            -> exists detail w',
                evaluate_dataset dataset normalize filter_type w
                = (Raise (IncompleteDatasetException detail), w')
                /\ dataset_eval_jobs w' = dataset_eval_jobs w)
     /\ (forall document,
            no_active_job w dataset
            -> Json.assoc dataset (datasets w) = Some document
            -> Jsonschema.validate JSON_SCHEMA_COMPLETE document = None
            -> Forall (has_lowlevel w) (referenced_recordings document)
            -> exists msg w',
                evaluate_dataset dataset normalize filter_type w
                = (Raise (ValueError msg), w')
                /\ dataset_eval_jobs w' = dataset_eval_jobs w).
Proof.
  intros Hopts. split; [|split].
  - apply evaluate_dataset_guarded.
  - intros document Hnone Hdoc Hinc.
    destruct (evaluate_dataset_rejects_incomplete
                w dataset normalize filter_type document Hnone Hdoc Hinc)
      as [detail [w' [H [Hjobs _]]]].
    exists detail, w'. auto.
  - intros document Hnone Hdoc Hvalid Hall.
    rewrite (evaluate_dataset_complete _ _ _ _ _ Hnone Hdoc Hvalid Hall).
    destruct (_create_job_cases dataset normalize filter_type
                (with_calls
                   (lowlevel_calls w ++ referenced_recordings document)%list
                   w))
      as [[Hv _]|[_ [msg ->]]]; [contradiction|].
    eexists. eexists. split; reflexivity.
Qed.

Lemma number_is_no_boolean : ~ valid_options (JNum 1) (JStr "album").
Proof. intros [[b Hb] _]. discriminate Hb. Defined.

Lemma evaluate_dataset_checks_options_last_witness :
  ~ valid_options (JNum 1) (JStr "album")
  /\ evaluate_dataset "jkl" (JNum 1) (JStr "album") Sample.moods_running
     = (Raise JobExistsException, Sample.moods_running)
  /\ (exists detail w',
         evaluate_dataset "def" (JNum 1) (JStr "album") Sample.fresh
         = (Raise (IncompleteDatasetException detail), w')
         /\ dataset_eval_jobs w' = dataset_eval_jobs Sample.fresh)
  /\ (exists msg w',
         evaluate_dataset "abc" (JNum 1) (JStr "album") Sample.fresh
         = (Raise (ValueError msg), w')
         /\ dataset_eval_jobs w' = dataset_eval_jobs Sample.fresh).
Proof.
  split; [exact number_is_no_boolean|].
  split; [|split].
  - destruct (evaluate_dataset_checks_options_last
                Sample.moods_running "jkl" (JNum 1) (JStr "album")
                number_is_no_boolean) as [H _].
    apply H.
    exists (mkJob 0 "jkl" STATUS_RUNNING None None "{}" 1 2).
    simpl. auto.
  - destruct (evaluate_dataset_checks_options_last
                Sample.fresh "def" (JNum 1) (JStr "album")
                number_is_no_boolean) as [_ [H _]].
    apply (H Sample.draft).
    + exact (fresh_no_active_job "def").
    + reflexivity.
    + left. discriminate.
  - destruct (evaluate_dataset_checks_options_last
                Sample.fresh "abc" (JNum 1) (JStr "album")
                number_is_no_boolean) as [_ [_ H]].
    apply (H Sample.genres).
    + exact (fresh_no_active_job "abc").
    + reflexivity.
    + reflexivity.
    + unfold has_lowlevel. simpl. repeat constructor.
Defined.

Example filter_checked_after_normalize :
  fst (evaluate_dataset "abc" (JBool true) (JStr "album") Sample.fresh)
  = Raise (ValueError "Incorrect 'filter_type'. See module documentation.")
  /\ fst (evaluate_dataset "abc" JNull (JStr "album") Sample.fresh)
     = Raise (ValueError "Argument 'normalize' must be a boolean.").
Proof. split; reflexivity. Qed.

(** ** A successful call *)

(** C2: for a dataset without an active job whose document conforms to the
    complete-dataset schema (any number of classes, each with at least one
    recording) and references only recordings with low-level data,
    [evaluate_dataset] with a boolean [normalize] and a [filter_type] that is
    [None] or [artist] returns the id of exactly one new row: the id is fresh,
    the status is pending, the options are the JSON text of
    [{normalize, filter_type}], and [job_exists] then answers [True]. *)
Theorem evaluate_dataset_creates_job (w : World) (dataset : string)
        (normalize filter_type document : json) :
  ids_generated w
  -> no_active_job w dataset
  -> Json.assoc dataset (datasets w) = Some document
  -> Jsonschema.validate JSON_SCHEMA_COMPLETE document = None
  -> Forall (has_lowlevel w) (referenced_recordings document)
  -> valid_options normalize filter_type
  -> exists id w',
      evaluate_dataset dataset normalize filter_type w = (Return id, w')
      /\ ~ In id (map job_id (dataset_eval_jobs w))
      /\ dataset_eval_jobs w'
         = (dataset_eval_jobs w
            ++ [mkJob id dataset STATUS_PENDING None None
                  (Json.dumps (JObj [("normalize", normalize);
                                     ("filter_type", filter_type)]))
                  (current_timestamp w) (current_timestamp w)])%list
      /\ job_exists dataset w' = (Return true, w').
Proof.
  intros [Hgen _] Hnone Hdoc Hvalid Hall Hopts.
  rewrite (evaluate_dataset_complete _ _ _ _ _ Hnone Hdoc Hvalid Hall).
  destruct (_create_job_cases dataset normalize filter_type
              (with_calls
                 (lowlevel_calls w ++ referenced_recordings document)%list w))
    as [[_ ->]|[Hv _]]; [|contradiction].
  eexists. eexists. split; [reflexivity|].
  cbn [uuid_seed with_calls dataset_eval_jobs with_jobs with_seed].
  split; [|split; [reflexivity|]].
  - intros Hin. apply in_map_iff in Hin. destruct Hin as [j [Hid Hj]].
    rewrite Forall_forall in Hgen. specialize (Hgen j Hj). lia.
  - unfold job_exists, begin. rewrite _job_exists_true; [reflexivity|].
    eexists. split; [apply in_or_app; right; left; reflexivity|].
    split; reflexivity.
Qed.

Lemma fresh_ids_generated : ids_generated Sample.fresh.
Proof. split; constructor. Defined.

Lemma evaluate_dataset_creates_job_witness :
  ids_generated Sample.fresh
  /\ no_active_job Sample.fresh "abc"
  /\ Jsonschema.validate JSON_SCHEMA_COMPLETE Sample.genres = None
  /\ Forall (has_lowlevel Sample.fresh) (referenced_recordings Sample.genres)
  /\ valid_options (JBool true) (JStr FILTER_ARTIST)
  /\ exists id w',
      evaluate_dataset "abc" (JBool true) (JStr FILTER_ARTIST) Sample.fresh
      = (Return id, w')
      /\ job_exists "abc" w' = (Return true, w').
Proof.
  assert (Hall : Forall (has_lowlevel Sample.fresh)
                        (referenced_recordings Sample.genres)).
  { unfold has_lowlevel. simpl. repeat constructor. }
  assert (Hopts : valid_options (JBool true) (JStr FILTER_ARTIST)).
  { split; [exists true; reflexivity | right; reflexivity]. }
  split; [exact fresh_ids_generated|].
  split; [exact (fresh_no_active_job "abc")|].
  split; [reflexivity|]. split; [exact Hall|]. split; [exact Hopts|].
  destruct (evaluate_dataset_creates_job
              Sample.fresh "abc" (JBool true) (JStr FILTER_ARTIST)
              Sample.genres fresh_ids_generated (fresh_no_active_job "abc")
              eq_refl eq_refl Hall Hopts)
    as [id [w' [Hret [_ [_ Hexists]]]]].
  exists id, w'. split; assumption.
Defined.

Example bare_dataset_is_queued :
  exists w',
    evaluate_dataset "ghi" (JBool false) JNull Sample.fresh = (Return 0, w')
    /\ map status (dataset_eval_jobs w') = [STATUS_PENDING]
    /\ lowlevel_calls w' = [].
Proof. eexists. split; [reflexivity|]. split; reflexivity. Qed.

(** ** The memo of [validate_dataset] *)

(** On a complete document the loops look every occurrence of a recording
    up, in iteration order. *)
Lemma validate_dataset_lookups (dataset : json) (w : World) :
  Jsonschema.validate JSON_SCHEMA_COMPLETE dataset = None
  -> Forall (has_lowlevel w) (referenced_recordings dataset)
  -> validate_dataset dataset w
     = (Return tt,
        with_calls (lowlevel_calls w ++ referenced_recordings dataset)%list w).
Proof.
  intros Hvalid Hall.
  rewrite validate_dataset_eq, Hvalid, (scan_present _ _ Hall). reflexivity.
Qed.

(** C5, on the code: [Sample.genres] is complete, its two classes share the
    recording [r1], and every recording has low-level data.  The memo holds
    [r1] once the first class is done, yet [count_lowlevel] is called for
    [r1] again in the second class: the branch that finds a recording in the
    memo is a [pass], after which the lookup is made all the same. *)
Theorem validate_dataset_repeats_lookup :
  Jsonschema.validate JSON_SCHEMA_COMPLETE Sample.genres = None
  /\ Forall (has_lowlevel Sample.fresh) (referenced_recordings Sample.genres)
  /\ memo_confirmed (memo_after [] ["r1"; "r2"]) "r1" = true
  /\ validate_dataset Sample.genres Sample.fresh
     = (Return tt, with_calls ["r1"; "r2"; "r1"; "r3"] Sample.fresh)
  /\ count_occ string_dec
       (lowlevel_calls (snd (validate_dataset Sample.genres Sample.fresh)))
       "r1" = 2.
Proof.
  split; [reflexivity|]. split.
  - unfold has_lowlevel. simpl. repeat constructor.
  - split; [reflexivity|]. split; reflexivity.
Qed.

(** ** The queue invariant *)

Lemma at_most_one_activeb_sound (w : World) :
  at_most_one_activeb w = true -> at_most_one_active w.
Proof.
  intros H d.
  destruct (active_jobs d (dataset_eval_jobs w)) as [|j l] eqn:E;
    [simpl; lia|].
  assert (Hj : In j (active_jobs d (dataset_eval_jobs w)))
    by (rewrite E; left; reflexivity).
  apply active_jobs_In in Hj. destruct Hj as [Hin [Hd _]].
  unfold at_most_one_activeb in H. rewrite forallb_forall in H.
  specialize (H j Hin). apply Nat.leb_le in H.
  rewrite Hd, E in H. exact H.
Qed.

Lemma at_most_one_active_jobs (w w' : World) :
  dataset_eval_jobs w' = dataset_eval_jobs w
  -> at_most_one_active w -> at_most_one_active w'.
Proof. intros E H d. rewrite E. apply H. Qed.

(** What [evaluate_dataset] does to the job table: nothing, or it appends one
    job for a dataset that had no active job. *)
Lemma evaluate_dataset_jobs (w : World) (dataset : string)
      (normalize filter_type : json) :
  dataset_eval_jobs (snd (evaluate_dataset dataset normalize filter_type w))
  = dataset_eval_jobs w
  \/ (active_jobs dataset (dataset_eval_jobs w) = []
      /\ exists j,
        dataset_id j = dataset
        /\ dataset_eval_jobs
             (snd (evaluate_dataset dataset normalize filter_type w))
           = (dataset_eval_jobs w ++ [j])%list).
Proof.
  unfold evaluate_dataset, begin, bind. rewrite _job_exists_eq.
  destruct (active_jobs dataset (dataset_eval_jobs w)) eqn:E;
    [|left; reflexivity].
  cbn [List.length Nat.ltb Nat.leb].
  unfold dataset_get.
  destruct (Json.assoc dataset (datasets w)) as [document|];
    [|left; reflexivity].
  rewrite validate_dataset_eq.
  destruct (Jsonschema.validate JSON_SCHEMA_COMPLETE document);
    [left; reflexivity|].
  destruct (snd (scan (lowlevel w) (referenced_recordings document)));
    [left; reflexivity|].
  destruct (_create_job_cases dataset normalize filter_type
              (with_calls
                 (lowlevel_calls w
                  ++ fst (scan (lowlevel w)
                            (referenced_recordings document)))%list w))
    as [[_ ->]|[_ [msg ->]]]; [|left; reflexivity].
  right. split; [reflexivity|].
  eexists. split; [|reflexivity]. reflexivity.
Qed.

Lemma active_jobs_app (dataset : string) (a b : list Job) :
  active_jobs dataset (a ++ b)%list
  = (active_jobs dataset a ++ active_jobs dataset b)%list.
Proof. apply filter_app. Qed.

(** An update that keeps the dataset of every job and activates none does
    not add active jobs. *)
Lemma update_keeps_active_count (g : Job -> Job) (dataset : string)
      (jobs : list Job) :
  (forall j, dataset_id (g j) = dataset_id j)
  -> (forall j, active (g j) = true -> active j = true)
  -> List.length (active_jobs dataset (map g jobs))
     <= List.length (active_jobs dataset jobs).
Proof.
  intros Hd Ha. induction jobs as [|j jobs IH]; [simpl; lia|].
  simpl. rewrite Hd.
  destruct (String.eqb (dataset_id j) dataset); simpl; [|exact IH].
  destruct (active (g j)) eqn:E.
  - rewrite (Ha j E). simpl. lia.
  - destruct (active j); simpl; lia.
Qed.

(** An update that touches one job only, keeps its dataset and activates it
    only if its dataset has no active job, keeps the invariant. *)
Lemma update_one_keeps_invariant (g : Job -> Job) (l1 l2 : list Job)
      (j0 : Job) :
  dataset_id (g j0) = dataset_id j0
  -> active j0 = true
     \/ active_jobs (dataset_id j0) (l1 ++ j0 :: l2)%list = []
  -> (forall d, List.length (active_jobs d (l1 ++ j0 :: l2)%list) <= 1)
  -> forall d, List.length (active_jobs d (l1 ++ g j0 :: l2)%list) <= 1.
Proof.
  intros Hd Hcase Hinv d. specialize (Hinv d).
  rewrite active_jobs_app in *. rewrite length_app in *.
  change (j0 :: l2) with ([j0] ++ l2)%list in *.
  change (g j0 :: l2) with ([g j0] ++ l2)%list.
  rewrite active_jobs_app in *. rewrite length_app in *.
  assert (Hone : List.length (active_jobs d [g j0]) <= 1).
  { simpl. destruct (_ && _); simpl; lia. }
  destruct Hcase as [Hact|Hnone].
  - assert (List.length (active_jobs d [g j0])
            <= List.length (active_jobs d [j0])); [|lia].
    simpl. rewrite Hd, Hact, andb_true_r.
    destruct (String.eqb (dataset_id j0) d); simpl; [|lia].
    destruct (active (g j0)); simpl; lia.
  - destruct (String.eqb_spec (dataset_id j0) d) as [<-|Hne].
    + apply app_eq_nil in Hnone. destruct Hnone as [E1 Hnone].
      apply app_eq_nil in Hnone. destruct Hnone as [_ E2].
      rewrite E1, E2. change (List.length (@nil Job)) with 0. lia.
    + assert (active_jobs d [g j0] = []) as ->; [|simpl in *; lia].
      simpl. rewrite Hd. apply String.eqb_neq in Hne. rewrite Hne.
      reflexivity.
Qed.

Lemma split_at_id (jobs : list Job) (id : uuid) :
  NoDup (map job_id jobs)
  -> (forall j, In j jobs -> job_id j <> id)
     \/ exists l1 j0 l2,
         jobs = (l1 ++ j0 :: l2)%list
         /\ job_id j0 = id
         /\ (forall j, In j l1 -> job_id j <> id)
         /\ (forall j, In j l2 -> job_id j <> id).
Proof.
  intros Hnd.
  destruct (in_dec Nat.eq_dec id (map job_id jobs)) as [Hin|Hout].
  - right. apply in_map_iff in Hin. destruct Hin as [j0 [Hid Hin]].
    apply in_split in Hin. destruct Hin as [l1 [l2 ->]].
    exists l1, j0, l2. split; [reflexivity|]. split; [exact Hid|].
    rewrite map_app in Hnd. simpl in Hnd.
    apply NoDup_remove_2 in Hnd. rewrite Hid in Hnd.
    split; intros j Hj E; apply Hnd, in_or_app; [left|right];
      apply in_map_iff; exists j; auto.
  - left. intros j Hj E. apply Hout. apply in_map_iff. exists j. auto.
Qed.

Lemma set_job_status_jobs (id : uuid) (s : string) (msg : option string)
      (w : World) :
  valid_status s
  -> dataset_eval_jobs (snd (set_job_status id s msg w))
     = map (fun j => if Nat.eqb (job_id j) id
                     then set_status s msg (current_timestamp w) j else j)
           (dataset_eval_jobs w).
Proof.
  intros Hs. apply contains_In in Hs.
  unfold set_job_status. rewrite Hs. reflexivity.
Qed.

(** C1, as the code has it: [evaluate_dataset] and [set_job_result] keep the
    invariant that no dataset has two active jobs, and so does
    [set_job_status] when it sets done or failed.  When [set_job_status] sets
    pending or running, the invariant is kept provided job ids are unique and
    the job that is named is active already or belongs to a dataset without
    an active job. *)
Theorem queue_invariant_preserved (w : World) :
  at_most_one_active w
  -> (forall dataset normalize filter_type,
         at_most_one_active
           (snd (evaluate_dataset dataset normalize filter_type w)))
     /\ (forall id r, at_most_one_active (snd (set_job_result id r w)))
     /\ (forall id s msg,
            s = STATUS_DONE \/ s = STATUS_FAILED
            -> at_most_one_active (snd (set_job_status id s msg w)))
     /\ (forall id s msg,
            s = STATUS_PENDING \/ s = STATUS_RUNNING
            -> unique_ids w
            -> (forall j, In j (dataset_eval_jobs w) -> job_id j = id
                          -> (status j = STATUS_PENDING
                              \/ status j = STATUS_RUNNING)
                             \/ no_active_job w (dataset_id j))
            -> at_most_one_active (snd (set_job_status id s msg w))).
Proof.
  intros Hinv. split; [|split; [|split]].
  - intros dataset normalize filter_type.
    destruct (evaluate_dataset_jobs w dataset normalize filter_type)
      as [E|[Hnone [j [Hd E]]]].
    + exact (at_most_one_active_jobs _ _ E Hinv).
    + intros d. rewrite E, active_jobs_app, length_app.
      destruct (String.eqb_spec dataset d) as [<-|Hne].
      * rewrite Hnone. simpl. destruct (_ && _); simpl; lia.
      * specialize (Hinv d). simpl. rewrite Hd.
        apply String.eqb_neq in Hne. rewrite Hne. simpl. lia.
  - intros id r d.
    destruct (set_job_result_cases id r w) as [[e ->]|[stored ->]];
      [apply Hinv|].
    cbn [snd dataset_eval_jobs with_jobs]. unfold updated_rows.
    etransitivity; [apply update_keeps_active_count | apply Hinv].
    + intros j. destruct (Nat.eqb (job_id j) id); reflexivity.
    + intros j. destruct (Nat.eqb (job_id j) id); [|auto].
      exact (fun H => H).
  - intros id s msg Hs d. rewrite set_job_status_jobs.
    + etransitivity; [apply update_keeps_active_count | apply Hinv].
      * intros j. destruct (Nat.eqb (job_id j) id); reflexivity.
      * intros j. destruct (Nat.eqb (job_id j) id); [|auto].
        destruct Hs as [-> | ->]; discriminate.
    + destruct Hs as [-> | ->]; unfold valid_status; simpl; auto.
  - intros id s msg Hs Hunique Hjob d. rewrite set_job_status_jobs.
    + destruct (split_at_id (dataset_eval_jobs w) id Hunique)
        as [Hout|[l1 [j0 [l2 [E [Hid [H1 H2]]]]]]].
      * rewrite update_untouched by exact Hout. apply Hinv.
      * rewrite E, map_app. cbn [map].
        rewrite !update_untouched by assumption.
        rewrite Hid, Nat.eqb_refl.
        apply update_one_keeps_invariant.
        -- reflexivity.
        -- destruct (Hjob j0) as [Hact|Hnone];
             [rewrite E; apply in_or_app; right; left; reflexivity
             | exact Hid | |].
           ++ left. apply active_status. exact Hact.
           ++ right. rewrite <- E. apply no_active_job_none. exact Hnone.
        -- rewrite <- E. exact Hinv.
    + destruct Hs as [-> | ->]; unfold valid_status; simpl; auto.
Qed.

Lemma requeued_at_most_one_active : at_most_one_active Sample.requeued.
Proof. apply at_most_one_activeb_sound. reflexivity. Defined.

Lemma queue_invariant_preserved_witness :
  at_most_one_active Sample.requeued
  /\ at_most_one_active
       (snd (evaluate_dataset "ghi" (JBool true) JNull Sample.requeued))
  /\ at_most_one_active
       (snd (set_job_result 1 (JStr Sample.score) Sample.requeued))
  /\ at_most_one_active
       (snd (set_job_status 1 STATUS_FAILED (Some "no data")
               Sample.requeued))
  /\ at_most_one_active
       (snd (set_job_status 1 STATUS_RUNNING None Sample.requeued)).
Proof.
  split; [exact requeued_at_most_one_active|].
  destruct (queue_invariant_preserved Sample.requeued
              requeued_at_most_one_active) as [He [Hr [Hd Ha]]].
  split; [apply He|]. split; [apply Hr|]. split.
  - apply Hd. right. reflexivity.
  - apply Ha.
    + right. reflexivity.
    + unfold unique_ids. simpl.
      constructor; [simpl; intros [H|[]]; discriminate H|].
      constructor; [simpl; tauto | constructor].
    + simpl. intros j [<-|[<-|[]]] Hid; [discriminate Hid|].
      left. left. reflexivity.
Defined.

(** C1, as the claim has it, fails: after a job of a dataset is done and the
    dataset is queued again, [set_job_status] may set the finished job to
    running, and the dataset then has two active jobs. *)
Lemma set_job_status_breaks_queue_invariant :
  at_most_one_active Sample.requeued
  /\ unique_ids Sample.requeued
  /\ valid_status STATUS_RUNNING
  /\ fst (set_job_status 0 STATUS_RUNNING None Sample.requeued) = Return tt
  /\ ~ at_most_one_active
         (snd (set_job_status 0 STATUS_RUNNING None Sample.requeued)).
Proof.
  split; [apply at_most_one_activeb_sound; reflexivity|].
  split.
  { unfold unique_ids. simpl.
    constructor; [simpl; intros [H|[]]; discriminate H|].
    constructor; [simpl; tauto | constructor]. }
  split; [unfold valid_status; simpl; auto|].
  split; [reflexivity|].
  intros H. specialize (H "abc"). vm_compute in H. lia.
Qed.

(** ** Well-formed worlds *)

(** The assumptions made above about stored ids hold in every world the
    module can produce from a well-formed one. *)

Lemma evaluate_dataset_ids (w : World) (dataset : string)
      (normalize filter_type : json) :
  let w' := snd (evaluate_dataset dataset normalize filter_type w) in
  dataset_snapshot w' = dataset_snapshot w
  /\ ((dataset_eval_jobs w' = dataset_eval_jobs w
       /\ uuid_seed w' = uuid_seed w)
      \/ (exists j,
             job_id j = uuid_seed w
             /\ dataset_eval_jobs w' = (dataset_eval_jobs w ++ [j])%list
             /\ uuid_seed w' = S (uuid_seed w))).
Proof.
  cbv zeta. unfold evaluate_dataset, begin, bind. rewrite _job_exists_eq.
  destruct (active_jobs dataset (dataset_eval_jobs w));
    [|split; [|left; split]; reflexivity].
  cbn [List.length Nat.ltb Nat.leb].
  unfold dataset_get.
  destruct (Json.assoc dataset (datasets w)) as [document|];
    [|split; [|left; split]; reflexivity].
  rewrite validate_dataset_eq.
  destruct (Jsonschema.validate JSON_SCHEMA_COMPLETE document);
    [split; [|left; split]; reflexivity|].
  destruct (snd (scan (lowlevel w) (referenced_recordings document)));
    [split; [|left; split]; reflexivity|].
  destruct (_create_job_cases dataset normalize filter_type
              (with_calls
                 (lowlevel_calls w
                  ++ fst (scan (lowlevel w)
                            (referenced_recordings document)))%list w))
    as [[_ ->]|[_ [msg ->]]]; [|split; [|left; split]; reflexivity].
  split; [reflexivity|]. right.
  eexists. split; [|split; reflexivity]. reflexivity.
Qed.

Lemma evaluate_dataset_keeps_ids_generated (w : World) (dataset : string)
      (normalize filter_type : json) :
  ids_generated w
  -> ids_generated (snd (evaluate_dataset dataset normalize filter_type w)).
Proof.
  intros [Hjobs Hsnaps].
  destruct (evaluate_dataset_ids w dataset normalize filter_type)
    as [Es [[Ej Eseed]|[j [Hid [Ej Eseed]]]]];
    unfold ids_generated; rewrite Es, Ej, Eseed.
  - split; assumption.
  - split.
    + apply Forall_app. split.
      * eapply Forall_impl; [|exact Hjobs]. simpl. intros; lia.
      * constructor; [lia | constructor].
    + eapply Forall_impl; [|exact Hsnaps]. simpl. intros; lia.
Qed.

Lemma NoDup_snoc {A : Type} (l : list A) (x : A) :
  NoDup l -> ~ In x l -> NoDup (l ++ [x])%list.
Proof.
  induction 1 as [|y l Hy Hnd IH]; intros Hx; simpl.
  - constructor; [intros [] | constructor].
  - constructor.
    + intros Hin. apply in_app_or in Hin. destruct Hin as [Hin|[<-|[]]].
      * exact (Hy Hin).
      * apply Hx. left. reflexivity.
    + apply IH. intros Hin. apply Hx. right. exact Hin.
Qed.

Lemma evaluate_dataset_keeps_unique_ids (w : World) (dataset : string)
      (normalize filter_type : json) :
  ids_generated w
  -> unique_ids w
  -> unique_ids (snd (evaluate_dataset dataset normalize filter_type w)).
Proof.
  intros [Hjobs _] Hunique.
  destruct (evaluate_dataset_ids w dataset normalize filter_type)
    as [_ [[Ej _]|[j [Hid [Ej _]]]]]; unfold unique_ids; rewrite Ej.
  - exact Hunique.
  - rewrite map_app. simpl. apply NoDup_snoc; [exact Hunique|].
    intros Hin. apply in_map_iff in Hin. destruct Hin as [j' [E Hj']].
    rewrite Forall_forall in Hjobs. specialize (Hjobs j' Hj'). lia.
Qed.

(** Whatever its argument, [add_dataset_snapshot] either raises and leaves
    the world as it was, or returns the generated id after appending one
    snapshot with that id. *)
Lemma add_dataset_snapshot_cases (d : json) (w : World) :
  (exists e, add_dataset_snapshot d w = (Raise e, w))
  \/ (exists v,
         add_dataset_snapshot d w
         = (Return (uuid_seed w),
            with_snapshots
              (dataset_snapshot w ++ [mkSnapshot (uuid_seed w) v])%list
              (with_seed (S (uuid_seed w)) w))).
Proof.
  assert (Hbind : forall x,
             (exists e, (stored <- Sql.bind_json x ;;
                         Sql.insert_snapshot (match stored with
                                              | Some v => v
                                              | None => JNull
                                              end)) w = (Raise e, w))
             \/ (exists v,
                    (stored <- Sql.bind_json x ;;
                     Sql.insert_snapshot (match stored with
                                          | Some v => v
                                          | None => JNull
                                          end)) w
                    = (Return (uuid_seed w),
                       with_snapshots
                         (dataset_snapshot w
                          ++ [mkSnapshot (uuid_seed w) v])%list
                         (with_seed (S (uuid_seed w)) w)))).
  { intros x. unfold bind, Sql.bind_json.
    destruct x as [| b | z | text | [|y l] | m];
      try (left; eexists; reflexivity).
    - right. eexists. reflexivity.
    - destruct (json_in w text); [right | left]; eexists; reflexivity.
    - destruct (json_in w "{}"); [right | left]; eexists; reflexivity. }
  destruct d as [| b | z | text | [|x [|y l]] | m];
    try (left; eexists; reflexivity);
    try (exact (Hbind _)).
Qed.

Lemma add_dataset_snapshot_keeps_ids_generated (w : World) (d : json) :
  ids_generated w -> ids_generated (snd (add_dataset_snapshot d w)).
Proof.
  intros Hgen.
  destruct (add_dataset_snapshot_cases d w) as [[e ->]|[v ->]];
    [exact Hgen|].
  destruct Hgen as [Hjobs Hsnaps]. split; simpl.
  - eapply Forall_impl; [|exact Hjobs]. simpl. intros; lia.
  - apply Forall_app. split.
    + eapply Forall_impl; [|exact Hsnaps]. simpl. intros; lia.
    + constructor; [simpl; lia | constructor].
Qed.

Lemma update_keeps_ids (g : Job -> Job) (jobs : list Job) :
  (forall j, job_id (g j) = job_id j)
  -> map job_id (map g jobs) = map job_id jobs.
Proof.
  intros H. rewrite map_map. apply map_ext. exact H.
Qed.

Lemma set_job_status_keeps_unique_ids (w : World) (id : uuid) (s : string)
      (msg : option string) :
  unique_ids w -> unique_ids (snd (set_job_status id s msg w)).
Proof.
  intros H. unfold set_job_status.
  destruct (contains _ s); [|exact H].
  unfold unique_ids. simpl. rewrite update_keeps_ids; [exact H|].
  intros j. destruct (Nat.eqb (job_id j) id); reflexivity.
Qed.

Lemma set_job_result_keeps_unique_ids (w : World) (id : uuid) (r : json) :
  unique_ids w -> unique_ids (snd (set_job_result id r w)).
Proof.
  intros H.
  destruct (set_job_result_cases id r w) as [[e ->]|[stored ->]];
    [exact H|].
  unfold unique_ids, updated_rows. simpl.
  rewrite update_keeps_ids; [exact H|].
  intros j. destruct (Nat.eqb (job_id j) id); reflexivity.
Qed.

(** ** Reading jobs *)

Lemma insert_by_created_perm (j : Job) (sorted : list Job) :
  Permutation (Sql.insert_by_created j sorted) (j :: sorted).
Proof.
  induction sorted as [|h t IH]; simpl; [apply Permutation_refl|].
  destruct (Nat.leb (created j) (created h)); [apply Permutation_refl|].
  eapply Permutation_trans; [apply perm_skip, IH | apply perm_swap].
Qed.

Lemma order_by_created_perm (rows : list Job) :
  Permutation (Sql.order_by_created rows) rows.
Proof.
  induction rows as [|j rows IH]; [apply Permutation_refl|].
  unfold Sql.order_by_created. simpl.
  eapply Permutation_trans; [apply insert_by_created_perm|].
  apply perm_skip. exact IH.
Qed.

Lemma insert_by_created_sorted (j : Job) (sorted : list Job) :
  StronglySorted created_before sorted
  -> StronglySorted created_before (Sql.insert_by_created j sorted).
Proof.
  induction 1 as [|h t Ht IH Hh]; simpl.
  - constructor; constructor.
  - destruct (Nat.leb_spec (created j) (created h)) as [L|L].
    + constructor; [constructor; assumption|].
      constructor; [exact L|].
      eapply Forall_impl; [|exact Hh].
      unfold created_before. intros; lia.
    + constructor; [exact IH|].
      apply (Permutation_Forall
               (Permutation_sym (insert_by_created_perm j t))).
      constructor; [unfold created_before; lia | exact Hh].
Qed.

Lemma order_by_created_sorted (rows : list Job) :
  StronglySorted created_before (Sql.order_by_created rows).
Proof.
  induction rows as [|j rows IH]; [constructor|].
  unfold Sql.order_by_created. simpl.
  apply insert_by_created_sorted. exact IH.
Qed.

(** X1: [get_jobs_for_dataset] returns the jobs of the dataset, each of them
    once and no other, in ascending order of [created]; it leaves the world
    as it was.  For a dataset without jobs the list is empty. *)
Theorem get_jobs_for_dataset_ordered (w : World) (dataset : string) :
  exists rows,
    get_jobs_for_dataset dataset w = (Return rows, w)
    /\ Permutation rows
         (filter (fun j => String.eqb (dataset_id j) dataset)
                 (dataset_eval_jobs w))
    /\ StronglySorted created_before rows
    /\ (forall j, In j rows
                  <-> In j (dataset_eval_jobs w) /\ dataset_id j = dataset)
    /\ ((forall j, In j (dataset_eval_jobs w) -> dataset_id j <> dataset)
        -> rows = []).
Proof.
  eexists. split; [reflexivity|].
  split; [apply order_by_created_perm|].
  split; [apply order_by_created_sorted|].
  split.
  - intros j. split; intros H.
    + apply (Permutation_in _ (order_by_created_perm _)) in H.
      apply filter_In in H. destruct H as [Hin Hd].
      apply String.eqb_eq in Hd. auto.
    + destruct H as [Hin Hd].
      apply (Permutation_in _ (Permutation_sym (order_by_created_perm _))).
      apply filter_In. split; [exact Hin | apply String.eqb_eq; exact Hd].
  - intros Hnone. rewrite filter_nothing; [reflexivity|].
    intros j Hj. apply String.eqb_neq. apply Hnone. exact Hj.
Qed.

Example jobs_of_abc_in_backlog :
  fst (get_jobs_for_dataset "abc" Sample.backlog)
  = Return [mkJob 2 "abc" "pending" None None "{}" 5 5;
            mkJob 0 "abc" "done" None None "{}" 7 9].
Proof. reflexivity. Qed.

Lemma select_by_id (jobs : list Job) (j : Job) :
  NoDup (map job_id jobs)
  -> In j jobs
  -> filter (fun x => Nat.eqb (job_id x) (job_id j)) jobs = [j].
Proof.
  intros Hnd Hin.
  destruct (split_at_id jobs (job_id j) Hnd)
    as [Hout|[l1 [j0 [l2 [-> [Hid [H1 H2]]]]]]].
  - elim (Hout j Hin). reflexivity.
  - assert (E : j0 = j).
    { apply in_app_or in Hin. destruct Hin as [Hin|[E|Hin]]; [|exact E|].
      - elim (H1 j Hin). reflexivity.
      - elim (H2 j Hin). reflexivity. }
    subst j0. rewrite filter_app. simpl. rewrite Nat.eqb_refl.
    rewrite !filter_nothing; [reflexivity| |];
      intros x Hx; apply Nat.eqb_neq; auto.
Qed.

(** X2: [get_job] leaves the world as it was; what it returns is a stored
    job with the given id, and [None] exactly when no job has that id.  When
    job ids are unique, every stored job is returned under its id. *)
Theorem get_job_by_id (w : World) :
  (forall id,
      exists r,
        get_job id w = (Return r, w)
        /\ match r with
           | Some j => In j (dataset_eval_jobs w) /\ job_id j = id
           | None => forall j, In j (dataset_eval_jobs w) -> job_id j <> id
           end)
  /\ (unique_ids w
      -> forall j, In j (dataset_eval_jobs w)
                   -> get_job (job_id j) w = (Return (Some j), w)).
Proof.
  split.
  - intros id. eexists. split; [reflexivity|].
    unfold Sql.fetchone.
    destruct (filter _ (dataset_eval_jobs w)) as [|j l] eqn:E; simpl.
    + intros j Hj Hid.
      assert (Hin : In j (filter (fun j => Nat.eqb (job_id j) id)
                                 (dataset_eval_jobs w))).
      { apply filter_In. split; [exact Hj | apply Nat.eqb_eq; exact Hid]. }
      rewrite E in Hin. destruct Hin.
    + assert (Hin : In j (filter (fun j => Nat.eqb (job_id j) id)
                                 (dataset_eval_jobs w)))
        by (rewrite E; left; reflexivity).
      apply filter_In in Hin. rewrite Nat.eqb_eq in Hin. exact Hin.
  - intros Hunique j Hj.
    unfold get_job, connect, bind, Sql.select_jobs, ret.
    rewrite (select_by_id _ _ Hunique Hj). reflexivity.
Qed.

Lemma backlog_unique_ids : unique_ids Sample.backlog.
Proof.
  unfold unique_ids. simpl.
  repeat (constructor; [simpl; intuition discriminate|]). constructor.
Defined.

Lemma get_job_by_id_witness :
  unique_ids Sample.backlog
  /\ get_job 2 Sample.backlog
     = (Return (Some (mkJob 2 "abc" "pending" None None "{}" 5 5)),
        Sample.backlog).
Proof.
  split; [exact backlog_unique_ids|].
  destruct (get_job_by_id Sample.backlog) as [_ H].
  apply (H backlog_unique_ids (mkJob 2 "abc" "pending" None None "{}" 5 5)).
  simpl. auto.
Defined.

(** X3: [job_exists] leaves the world as it was and answers [True] exactly
    when some job of the dataset is pending or running. *)
Theorem job_exists_iff_active (w : World) (dataset : string) :
  exists b,
    job_exists dataset w = (Return b, w)
    /\ (b = true
        <-> exists j, In j (dataset_eval_jobs w)
                      /\ dataset_id j = dataset
                      /\ (status j = STATUS_PENDING
                          \/ status j = STATUS_RUNNING)).
Proof.
  exists (Nat.ltb 0 (List.length
                       (active_jobs dataset (dataset_eval_jobs w)))).
  split; [reflexivity|].
  destruct (active_jobs dataset (dataset_eval_jobs w)) as [|j l] eqn:E.
  - split; [discriminate|].
    intros [j [Hin [Hd Hs]]]. apply active_status in Hs.
    assert (Hj : In j (active_jobs dataset (dataset_eval_jobs w)))
      by (apply active_jobs_In; auto).
    rewrite E in Hj. destruct Hj.
  - split; [|reflexivity]. intros _.
    assert (Hj : In j (active_jobs dataset (dataset_eval_jobs w)))
      by (rewrite E; left; reflexivity).
    apply active_jobs_In in Hj. destruct Hj as [Hin [Hd Hs]].
    exists j. rewrite <- active_status. auto.
Qed.

(** ** What the updates write *)

Lemma updated_rows_other_id (set : Job -> Job) (id id' : uuid)
      (jobs : list Job) :
  id' <> id
  -> (forall x, job_id (set x) = job_id x)
  -> filter (fun x => Nat.eqb (job_id x) id') (updated_rows set id jobs)
     = filter (fun x => Nat.eqb (job_id x) id') jobs.
Proof.
  intros Hne Hid. induction jobs as [|x l IH]; [reflexivity|].
  simpl. destruct (Nat.eqb_spec (job_id x) id) as [E|E].
  - rewrite Hid.
    assert (Hx : Nat.eqb (job_id x) id' = false)
      by (apply Nat.eqb_neq; congruence).
    rewrite Hx. exact IH.
  - destruct (Nat.eqb (job_id x) id'); [f_equal|]; exact IH.
Qed.

(** After an update by id has rewritten the job table, [get_job] finds the
    rewritten row under that id and every other row as it was. *)
Lemma get_job_after_update (set : Job -> Job) (w : World) (j : Job) :
  (forall x, job_id (set x) = job_id x)
  -> unique_ids w
  -> In j (dataset_eval_jobs w)
  -> let w' := with_jobs (updated_rows set (job_id j) (dataset_eval_jobs w))
                         w in
     get_job (job_id j) w' = (Return (Some (set j)), w')
     /\ forall id', id' <> job_id j
                    -> fst (get_job id' w') = fst (get_job id' w).
Proof.
  intros Hid Hunique Hj. cbv zeta. split.
  - unfold get_job, connect, bind, Sql.select_jobs, ret.
    cbn [dataset_eval_jobs with_jobs].
    assert (Hin : In (set j)
                     (updated_rows set (job_id j) (dataset_eval_jobs w))).
    { unfold updated_rows.
      apply in_map_iff. exists j. rewrite Nat.eqb_refl. auto. }
    assert (Hnd : NoDup (map job_id
                           (updated_rows set (job_id j)
                              (dataset_eval_jobs w)))).
    { unfold updated_rows. rewrite update_keeps_ids; [exact Hunique|].
      intros x. destruct (Nat.eqb (job_id x) (job_id j)); auto. }
    pose proof (select_by_id _ _ Hnd Hin) as E.
    rewrite Hid in E. rewrite E. reflexivity.
  - intros id' Hne.
    unfold get_job, connect, bind, Sql.select_jobs, ret.
    cbn [dataset_eval_jobs with_jobs fst].
    rewrite (updated_rows_other_id _ _ _ _ Hne Hid). reflexivity.
Qed.

(** X4: for a stored job (ids being unique) and a valid status,
    [set_job_status] returns normally, after which [get_job] shows the job
    with the new status, the new status message (the old one is overwritten,
    by [None] when no message is given) and [updated] set to the current
    timestamp, and with its id, dataset, result, options and [created] as
    before.  Jobs with other ids and the snapshots are as they were. *)
Theorem set_job_status_updates_job
        (w : World) (j : Job) (s : string) (msg : option string) :
  unique_ids w
  -> In j (dataset_eval_jobs w)
  -> valid_status s
  -> exists w',
      set_job_status (job_id j) s msg w = (Return tt, w')
      /\ get_job (job_id j) w'
         = (Return (Some (mkJob (job_id j) (dataset_id j) s msg (result j)
                            (options j) (created j) (current_timestamp w))),
            w')
      /\ (forall id', id' <> job_id j
                      -> fst (get_job id' w') = fst (get_job id' w))
      /\ dataset_snapshot w' = dataset_snapshot w.
Proof.
  intros Hunique Hj Hs.
  exists (with_jobs
            (updated_rows (set_status s msg (current_timestamp w)) (job_id j)
               (dataset_eval_jobs w)) w).
  split.
  - apply contains_In in Hs. unfold set_job_status. rewrite Hs. reflexivity.
  - destruct (get_job_after_update
                (set_status s msg (current_timestamp w)) w j
                (fun x => eq_refl) Hunique Hj) as [Hget Hother].
    split; [exact Hget|]. split; [exact Hother | reflexivity].
Qed.

Lemma set_job_status_updates_job_witness :
  unique_ids Sample.backlog
  /\ valid_status STATUS_FAILED
  /\ exists w',
      set_job_status 3 STATUS_FAILED (Some "no model") Sample.backlog
      = (Return tt, w')
      /\ get_job 3 w'
         = (Return (Some (mkJob 3 "jkl" "failed" (Some "no model") None "{}"
                            3 100)), w').
Proof.
  assert (Hs : valid_status STATUS_FAILED)
    by (unfold valid_status; simpl; auto).
  split; [exact backlog_unique_ids|]. split; [exact Hs|].
  destruct (set_job_status_updates_job
              Sample.backlog (mkJob 3 "jkl" "running" None None "{}" 3 4)
              STATUS_FAILED (Some "no model") backlog_unique_ids)
    as [w' [Hset [Hget _]]]; [simpl; auto | exact Hs |].
  exists w'. split; [exact Hset | exact Hget].
Defined.

(** X5: for a stored job (ids being unique), [set_job_result] with a JSON
    text that the database accepts returns normally, after which [get_job]
    shows the job with the value that the text stands for as its result and
    with [updated] set to the current timestamp; with [None] the result is
    cleared.  Its status and status message are not touched, nor are its id,
    dataset, options and [created].  Jobs with other ids and the snapshots
    are as they were. *)
Theorem set_job_result_updates_job (w : World) (j : Job) :
  unique_ids w
  -> In j (dataset_eval_jobs w)
  -> forall r stored,
    (r = JNull /\ stored = None)
    \/ (exists text v,
           r = JStr text /\ json_in w text = Some v /\ stored = Some v)
    -> exists w',
      set_job_result (job_id j) r w = (Return tt, w')
      /\ get_job (job_id j) w'
         = (Return (Some (mkJob (job_id j) (dataset_id j) (status j)
                            (status_msg j) stored (options j) (created j)
                            (current_timestamp w))),
            w')
      /\ (forall id', id' <> job_id j
                      -> fst (get_job id' w') = fst (get_job id' w))
      /\ dataset_snapshot w' = dataset_snapshot w.
Proof.
  intros Hunique Hj r stored Hr.
  exists (with_jobs
            (updated_rows (set_result stored (current_timestamp w)) (job_id j)
               (dataset_eval_jobs w)) w).
  split.
  - destruct Hr as [[-> ->]|[text [v [-> [Hv ->]]]]].
    + apply set_job_result_null.
    + apply set_job_result_text. exact Hv.
  - destruct (get_job_after_update
                (set_result stored (current_timestamp w)) w j
                (fun x => eq_refl) Hunique Hj) as [Hget Hother].
    split; [exact Hget|]. split; [exact Hother | reflexivity].
Qed.

Lemma set_job_result_updates_job_witness :
  unique_ids Sample.backlog
  /\ exists w',
      set_job_result 3 (JStr Sample.score) Sample.backlog = (Return tt, w')
      /\ get_job 3 w'
         = (Return (Some (mkJob 3 "jkl" "running" None
                            (Some (JObj [("score", JNum 87)])) "{}" 3 100)),
            w').
Proof.
  split; [exact backlog_unique_ids|].
  assert (Hin : In (mkJob 3 "jkl" "running" None None "{}" 3 4)
                   (dataset_eval_jobs Sample.backlog))
    by (simpl; auto).
  destruct (set_job_result_updates_job
              Sample.backlog (mkJob 3 "jkl" "running" None None "{}" 3 4)
              backlog_unique_ids Hin
              (JStr Sample.score) (Some (JObj [("score", JNum 87)])))
    as [w' [Hset [Hget _]]].
  - right. exists Sample.score, (JObj [("score", JNum 87)]).
    split; [reflexivity|]. split; reflexivity.
  - exists w'. split; [exact Hset | exact Hget].
Defined.

(** ** [evaluate_dataset] as a transaction *)

(** Every call of [evaluate_dataset] either raises and leaves tables and id
    generator as they were, or returns the generated id after appending the
    new job for a dataset that had no active job. *)
Lemma evaluate_dataset_outcome (w : World) (dataset : string)
      (normalize filter_type : json) :
  (exists e w',
      evaluate_dataset dataset normalize filter_type w = (Raise e, w')
      /\ dataset_eval_jobs w' = dataset_eval_jobs w
      /\ dataset_snapshot w' = dataset_snapshot w
      /\ uuid_seed w' = uuid_seed w)
  \/ (exists w',
         evaluate_dataset dataset normalize filter_type w
         = (Return (uuid_seed w), w')
         /\ active_jobs dataset (dataset_eval_jobs w) = []
         /\ dataset_eval_jobs w'
            = (dataset_eval_jobs w
               ++ [new_job w dataset normalize filter_type])%list
         /\ dataset_snapshot w' = dataset_snapshot w
         /\ uuid_seed w' = S (uuid_seed w)).
Proof.
  unfold evaluate_dataset, begin, bind. rewrite _job_exists_eq.
  destruct (active_jobs dataset (dataset_eval_jobs w)) eqn:E;
    [|left; eexists; eexists; repeat split; reflexivity].
  cbn [List.length Nat.ltb Nat.leb].
  unfold dataset_get.
  destruct (Json.assoc dataset (datasets w)) as [document|];
    [|left; eexists; eexists; repeat split; reflexivity].
  rewrite validate_dataset_eq.
  destruct (Jsonschema.validate JSON_SCHEMA_COMPLETE document);
    [left; eexists; eexists; repeat split; reflexivity|].
  destruct (snd (scan (lowlevel w) (referenced_recordings document)));
    [left; eexists; eexists; repeat split; reflexivity|].
  destruct (_create_job_cases dataset normalize filter_type
              (with_calls
                 (lowlevel_calls w
                  ++ fst (scan (lowlevel w)
                            (referenced_recordings document)))%list w))
    as [[_ ->]|[_ [msg ->]]];
    [|left; eexists; eexists; repeat split; reflexivity].
  right. eexists. repeat split; reflexivity.
Qed.

(** X7: [evaluate_dataset] is all or nothing.  When it raises, whatever the
    exception, the job table, the snapshot table and the id generator are as
    before the call.  When it returns an id, the job table is the old one
    followed by exactly one row, which has that id, the dataset, status
    pending, no status message, no result and the options as JSON text; the
    snapshots are untouched. *)
Theorem evaluate_dataset_all_or_nothing (w : World) (dataset : string)
        (normalize filter_type : json) :
  match evaluate_dataset dataset normalize filter_type w with
  | (Raise _, w') =>
      dataset_eval_jobs w' = dataset_eval_jobs w
      /\ dataset_snapshot w' = dataset_snapshot w
      /\ uuid_seed w' = uuid_seed w
  | (Return id, w') =>
      dataset_eval_jobs w'
      = (dataset_eval_jobs w
         ++ [mkJob id dataset STATUS_PENDING None None
               (Json.dumps (JObj [("normalize", normalize);
                                  ("filter_type", filter_type)]))
               (current_timestamp w) (current_timestamp w)])%list
      /\ dataset_snapshot w' = dataset_snapshot w
  end.
Proof.
  destruct (evaluate_dataset_outcome w dataset normalize filter_type)
    as [[e [w' [-> H]]]|[w' [-> [_ [Hjobs [Hsnaps _]]]]]].
  - exact H.
  - split; [exact Hjobs | exact Hsnaps].
Qed.

(** X8: once [evaluate_dataset] has returned for a dataset, a second call
    for the same dataset raises [JobExistsException] and changes nothing,
    whatever its option arguments. *)
Theorem evaluate_dataset_twice (w w' : World) (dataset : string)
        (normalize filter_type : json) (id : uuid) :
  evaluate_dataset dataset normalize filter_type w = (Return id, w')
  -> forall normalize' filter_type',
    evaluate_dataset dataset normalize' filter_type' w'
    = (Raise JobExistsException, w').
Proof.
  intros H normalize' filter_type'.
  destruct (evaluate_dataset_outcome w dataset normalize filter_type)
    as [[e [w1 [E _]]]|[w1 [E [_ [Hjobs _]]]]];
    rewrite E in H; [discriminate|].
  injection H as _ <-.
  apply evaluate_dataset_guarded.
  exists (new_job w dataset normalize filter_type).
  rewrite Hjobs. split; [apply in_or_app; right; left; reflexivity|].
  split; [reflexivity | left; reflexivity].
Qed.

Lemma evaluate_dataset_twice_witness :
  evaluate_dataset "abc" (JBool true) JNull Sample.fresh
  = (Return 0, Sample.queued)
  /\ evaluate_dataset "abc" (JBool false) (JStr "artist") Sample.queued
     = (Raise JobExistsException, Sample.queued).
Proof.
  assert (H : evaluate_dataset "abc" (JBool true) JNull Sample.fresh
              = (Return 0, Sample.queued)) by reflexivity.
  split; [exact H|].
  apply (evaluate_dataset_twice Sample.fresh Sample.queued "abc"
           (JBool true) JNull 0 H).
Defined.

(** ** The life of a job *)

Lemma at_most_one_element {A : Type} (l : list A) (a b : A) :
  List.length l <= 1 -> In a l -> In b l -> a = b.
Proof.
  destruct l as [|x [|y l]]; simpl; intros Hlen Ha Hb.
  - destruct Ha.
  - destruct Ha as [<-|[]]. destruct Hb as [<-|[]]. reflexivity.
  - lia.
Qed.

(** X9: when the active job of a dataset is set to done or failed, the
    dataset has no active job any more: [job_exists] answers [False], so the
    dataset can be queued again. *)
Theorem finished_job_frees_dataset
        (w : World) (j : Job) (s : string) (msg : option string) :
  at_most_one_active w
  -> In j (dataset_eval_jobs w)
  -> status j = STATUS_PENDING \/ status j = STATUS_RUNNING
  -> s = STATUS_DONE \/ s = STATUS_FAILED
  -> exists w',
      set_job_status (job_id j) s msg w = (Return tt, w')
      /\ job_exists (dataset_id j) w' = (Return false, w').
Proof.
  intros Hinv Hj Hact Hs.
  exists (with_jobs
            (updated_rows (set_status s msg (current_timestamp w)) (job_id j)
               (dataset_eval_jobs w)) w).
  split.
  - unfold set_job_status.
    destruct Hs as [-> | ->]; reflexivity.
  - unfold job_exists, begin. rewrite _job_exists_false; [reflexivity|].
    cbn [dataset_eval_jobs with_jobs].
    apply filter_nothing. intros x' Hx'.
    unfold updated_rows in Hx'. apply in_map_iff in Hx'.
    destruct Hx' as [x [<- Hx]].
    destruct (Nat.eqb_spec (job_id x) (job_id j)) as [E|E].
    + apply andb_false_iff. right.
      destruct Hs as [-> | ->]; reflexivity.
    + destruct (String.eqb_spec (dataset_id x) (dataset_id j)) as [Ed|Ed];
        [|reflexivity].
      destruct (active x) eqn:Ea; [|reflexivity].
      exfalso. apply E. f_equal.
      apply (at_most_one_element
               (active_jobs (dataset_id j) (dataset_eval_jobs w)));
        [apply Hinv | |]; apply active_jobs_In.
      * auto.
      * split; [exact Hj|]. split; [reflexivity|].
        apply active_status. exact Hact.
Qed.

Lemma backlog_at_most_one_active : at_most_one_active Sample.backlog.
Proof. apply at_most_one_activeb_sound. reflexivity. Defined.

Lemma finished_job_frees_dataset_witness :
  at_most_one_active Sample.backlog
  /\ fst (job_exists "jkl" Sample.backlog) = Return true
  /\ exists w',
      set_job_status 3 STATUS_DONE None Sample.backlog = (Return tt, w')
      /\ job_exists "jkl" w' = (Return false, w').
Proof.
  split; [exact backlog_at_most_one_active|]. split; [reflexivity|].
  apply (finished_job_frees_dataset
           Sample.backlog (mkJob 3 "jkl" "running" None None "{}" 3 4)
           STATUS_DONE None backlog_at_most_one_active).
  - simpl. auto.
  - right. reflexivity.
  - left. reflexivity.
Defined.

Lemma pending_after_claim (id : uuid) (msg : option string) (now : nat)
      (jobs : list Job) :
  filter (fun x => String.eqb (status x) STATUS_PENDING)
         (updated_rows (set_status STATUS_RUNNING msg now) id jobs)
  = filter (fun x => String.eqb (status x) STATUS_PENDING
                     && negb (Nat.eqb (job_id x) id))
           jobs.
Proof.
  induction jobs as [|x l IH]; [reflexivity|].
  simpl. destruct (Nat.eqb (job_id x) id); simpl.
  - rewrite andb_false_r. exact IH.
  - rewrite andb_true_r.
    destruct (String.eqb (status x) STATUS_PENDING); [f_equal|]; exact IH.
Qed.

(** X10: a worker that takes the job [get_next_pending_job] offers and sets
    it to running is not offered that job again: the next call offers a
    pending job with another id, created no earlier, or [None] when no job
    with another id is pending. *)
Theorem claimed_job_not_offered_again
        (w : World) (j : Job) (msg : option string) :
  get_next_pending_job w = (Return (Some j), w)
  -> exists r w',
      set_job_status (job_id j) STATUS_RUNNING msg w = (Return tt, w')
      /\ get_next_pending_job w' = (Return r, w')
      /\ match r with
         | Some j' =>
             job_id j' <> job_id j
             /\ In j' (dataset_eval_jobs w)
             /\ status j' = STATUS_PENDING
             /\ created j <= created j'
         | None =>
             forall j', In j' (dataset_eval_jobs w)
                        -> status j' = STATUS_PENDING
                        -> job_id j' = job_id j
         end.
Proof.
  intros H.
  unfold get_next_pending_job, connect, bind, Sql.select_jobs, ret in H.
  rewrite fetchone_limit_1 in H. injection H as H.
  apply order_by_created_hd_least in H. destruct H as [_ Hleast].
  eexists. eexists. split; [reflexivity|].
  unfold get_next_pending_job, connect, bind, Sql.select_jobs, ret.
  rewrite fetchone_limit_1. cbn [dataset_eval_jobs with_jobs].
  split; [reflexivity|].
  fold (updated_rows (set_status STATUS_RUNNING msg (current_timestamp w))
          (job_id j) (dataset_eval_jobs w)).
  rewrite pending_after_claim.
  destruct (hd_error (Sql.order_by_created _)) as [j'|] eqn:E.
  - apply order_by_created_hd_least in E. destruct E as [Hin _].
    apply filter_In in Hin. destruct Hin as [Hin Hp].
    apply andb_true_iff in Hp. destruct Hp as [Hp Hid].
    apply String.eqb_eq in Hp. apply negb_true_iff, Nat.eqb_neq in Hid.
    repeat split; [exact Hid | exact Hin | exact Hp |].
    apply Hleast. apply filter_In.
    split; [exact Hin | apply String.eqb_eq; exact Hp].
  - apply order_by_created_hd_none in E.
    intros j' Hin Hp.
    destruct (Nat.eq_dec (job_id j') (job_id j)) as [Hid|Hid]; [exact Hid|].
    exfalso.
    assert (Hf : In j' (filter
                          (fun x => String.eqb (status x) STATUS_PENDING
                                    && negb (Nat.eqb (job_id x) (job_id j)))
                          (dataset_eval_jobs w))).
    { apply filter_In. split; [exact Hin|].
      apply andb_true_iff. split; [apply String.eqb_eq; exact Hp|].
      apply negb_true_iff, Nat.eqb_neq. exact Hid. }
    rewrite E in Hf. destruct Hf.
Qed.

Lemma claimed_job_not_offered_again_witness :
  get_next_pending_job Sample.backlog
  = (Return (Some (mkJob 2 "abc" "pending" None None "{}" 5 5)),
     Sample.backlog)
  /\ exists r w',
      set_job_status 2 STATUS_RUNNING None Sample.backlog = (Return tt, w')
      /\ get_next_pending_job w' = (Return r, w')
      /\ match r with
         | Some j' => job_id j' <> 2
         | None => True
         end.
Proof.
  assert (H : get_next_pending_job Sample.backlog
              = (Return (Some (mkJob 2 "abc" "pending" None None "{}" 5 5)),
                 Sample.backlog)) by reflexivity.
  split; [exact H|].
  destruct (claimed_job_not_offered_again Sample.backlog _ None H)
    as [r [w' [Hset [Hnext Hr]]]].
  exists r, w'. split; [exact Hset|]. split; [exact Hnext|].
  destruct r as [j'|]; [|exact I]. destruct Hr as [Hid _]. exact Hid.
Defined.

(** ** Snapshots are immutable *)

(** X11: whatever its argument, and whether it returns or raises,
    [add_dataset_snapshot] leaves the jobs alone, and under every id other
    than the one it returns [get_dataset_snapshot] answers as before the
    call.  In particular, when stored ids came out of the generator, every
    snapshot stored before is still returned unchanged under its id.  When
    the call raises, the world is as it was. *)
Theorem add_dataset_snapshot_keeps_earlier (w : World) (d : json) :
  dataset_eval_jobs (snd (add_dataset_snapshot d w)) = dataset_eval_jobs w
  /\ (forall i',
         fst (add_dataset_snapshot d w) <> Return i'
         -> fst (get_dataset_snapshot i' (snd (add_dataset_snapshot d w)))
            = fst (get_dataset_snapshot i' w))
  /\ (ids_generated w
      -> forall s, In s (dataset_snapshot w)
                   -> fst (get_dataset_snapshot (snapshot_id s)
                             (snd (add_dataset_snapshot d w)))
                      = fst (get_dataset_snapshot (snapshot_id s) w))
  /\ (forall e, fst (add_dataset_snapshot d w) = Raise e
                -> snd (add_dataset_snapshot d w) = w).
Proof.
  destruct (add_dataset_snapshot_cases d w) as [[e ->]|[v ->]].
  - repeat split; reflexivity.
  - cbn [fst snd].
    assert (Hother :
              forall i', i' <> uuid_seed w
                         -> fst (get_dataset_snapshot i'
                                   (with_snapshots
                                      (dataset_snapshot w
                                       ++ [mkSnapshot (uuid_seed w) v])%list
                                      (with_seed (S (uuid_seed w)) w)))
                            = fst (get_dataset_snapshot i' w)).
    { intros i' Hne.
      unfold get_dataset_snapshot, connect, bind, Sql.select_snapshots, ret.
      cbn [dataset_snapshot with_snapshots with_seed fst].
      rewrite filter_app. simpl.
      apply Nat.eqb_neq in Hne. rewrite Nat.eqb_sym in Hne. rewrite Hne.
      rewrite app_nil_r. reflexivity. }
    split; [reflexivity|]. split; [|split].
    + intros i' Hne. apply Hother. intros ->. apply Hne. reflexivity.
    + intros [_ Hgen] s Hs. apply Hother.
      rewrite Forall_forall in Hgen. specialize (Hgen s Hs). lia.
    + intros e He. discriminate He.
Qed.

Lemma add_dataset_snapshot_keeps_earlier_witness :
  ids_generated Sample.backlog
  /\ fst (add_dataset_snapshot (JStr "{}") Sample.backlog) = Return 5
  /\ fst (get_dataset_snapshot 4
            (snd (add_dataset_snapshot (JStr "{}") Sample.backlog)))
     = Return (Some (mkSnapshot 4 (JArr [JNum 1; JNull]))).
Proof.
  split; [exact backlog_ids_generated|]. split; [reflexivity|].
  destruct (add_dataset_snapshot_keeps_earlier Sample.backlog (JStr "{}"))
    as [_ [_ [Hkeep _]]].
  exact (Hkeep backlog_ids_generated (mkSnapshot 4 (JArr [JNum 1; JNull]))
               (or_introl eq_refl)).
Defined.

(** ** [validate_dataset] on any document *)

Lemma scan_prefix (table mbids : list string) :
  exists post,
    mbids = (fst (scan table mbids) ++ post)%list
    /\ (snd (scan table mbids) = None
        -> post = []
           /\ Forall (fun mbid => 0 < count_occ string_dec table mbid)
                     mbids).
Proof.
  destruct (first_missing_cases table mbids)
    as [Hall|[pre [x [post [-> [Hpre Hx]]]]]].
  - exists []. rewrite (scan_present _ _ Hall). simpl.
    rewrite app_nil_r. auto.
  - exists post. rewrite (scan_first_missing _ _ _ _ Hpre Hx). simpl.
    split; [rewrite <- app_assoc; reflexivity | discriminate].
Qed.

(** X12: whatever value it is given, [validate_dataset] returns or raises
    [IncompleteDatasetException]; it raises no [KeyError] or [TypeError]
    from its subscripts, because the schema check comes first.  It writes
    nothing: the world after the call differs by the lookups only, and the
    recordings looked up are an initial stretch of the referenced recordings
    in iteration order.  When it returns, every reference has been looked up
    and has low-level data. *)
Theorem validate_dataset_outcome (dataset : json) (w : World) :
  exists looked post,
    referenced_recordings dataset = (looked ++ post)%list
    /\ snd (validate_dataset dataset w)
       = with_calls (lowlevel_calls w ++ looked)%list w
    /\ ((fst (validate_dataset dataset w) = Return tt
         /\ post = []
         /\ Forall (has_lowlevel w) looked
         /\ Jsonschema.validate JSON_SCHEMA_COMPLETE dataset = None)
        \/ exists detail,
            fst (validate_dataset dataset w)
            = Raise (IncompleteDatasetException detail)).
Proof.
  rewrite validate_dataset_eq.
  destruct (Jsonschema.validate JSON_SCHEMA_COMPLETE dataset) as [e|].
  - exists [], (referenced_recordings dataset).
    split; [reflexivity|]. split.
    + simpl. rewrite app_nil_r, with_calls_same. reflexivity.
    + right. eexists. reflexivity.
  - destruct (scan_prefix (lowlevel w) (referenced_recordings dataset))
      as [post [Hrefs Hnone]].
    exists (fst (scan (lowlevel w) (referenced_recordings dataset))), post.
    split; [exact Hrefs|]. split; [reflexivity|].
    destruct (snd (scan (lowlevel w) (referenced_recordings dataset)))
      as [mbid|].
    + right. eexists. reflexivity.
    + left. destruct (Hnone eq_refl) as [-> Hall].
      rewrite app_nil_r in Hrefs. rewrite <- Hrefs.
      repeat split. exact Hall.
Qed.

Example validate_dataset_on_a_number :
  validate_dataset (JNum 3) Sample.fresh
  = (Raise (IncompleteDatasetException
              (SchemaViolation (NotOfType (JNum 3) [TObject]))),
     Sample.fresh).
Proof. reflexivity. Qed.

(** ** Which option error is raised *)

(** X13: for a complete dataset without an active job, a [normalize] that is
    not a boolean is reported first, whatever [filter_type] is; with a
    boolean [normalize], a [filter_type] that is neither [None] nor [artist]
    is reported.  In both cases the job table is as before the call. *)
Theorem evaluate_dataset_option_errors (w : World) (dataset : string)
        (normalize filter_type document : json) :
  no_active_job w dataset
  -> Json.assoc dataset (datasets w) = Some document
  -> Jsonschema.validate JSON_SCHEMA_COMPLETE document = None
  -> Forall (has_lowlevel w) (referenced_recordings document)
  -> ((forall b, normalize <> JBool b)
      -> exists w',
          evaluate_dataset dataset normalize filter_type w
          = (Raise (ValueError "Argument 'normalize' must be a boolean."),
             w')
          /\ dataset_eval_jobs w' = dataset_eval_jobs w)
     /\ ((exists b, normalize = JBool b)
         -> filter_type <> JNull
         -> filter_type <> JStr FILTER_ARTIST
         -> exists w',
             evaluate_dataset dataset normalize filter_type w
             = (Raise (ValueError
                         "Incorrect 'filter_type'. See module documentation."),
                w')
             /\ dataset_eval_jobs w' = dataset_eval_jobs w).
Proof.
  intros Hnone Hdoc Hvalid Hall.
  rewrite (evaluate_dataset_complete _ _ _ _ _ Hnone Hdoc Hvalid Hall).
  split.
  - intros Hn.
    exists (with_calls
              (lowlevel_calls w ++ referenced_recordings document)%list w).
    split; [|reflexivity].
    unfold _create_job.
    destruct normalize as [| b | | | |]; try reflexivity.
    elim (Hn b). reflexivity.
  - intros [b ->] Hnull Hartist.
    exists (with_calls
              (lowlevel_calls w ++ referenced_recordings document)%list w).
    split; [|reflexivity].
    unfold _create_job.
    destruct filter_type as [| | | s | |]; try reflexivity.
    + elim Hnull. reflexivity.
    + cbn [isinstance_bool negb is_None value_in contains existsb andb orb].
      destruct (String.eqb_spec s FILTER_ARTIST) as [->|Hs];
        [elim Hartist; reflexivity | reflexivity].
Qed.

Lemma evaluate_dataset_option_errors_witness :
  no_active_job Sample.fresh "abc"
  /\ Forall (has_lowlevel Sample.fresh) (referenced_recordings Sample.genres)
  /\ fst (evaluate_dataset "abc" (JStr "yes") (JStr "album") Sample.fresh)
     = Raise (ValueError "Argument 'normalize' must be a boolean.")
  /\ fst (evaluate_dataset "abc" (JBool true) (JStr "album") Sample.fresh)
     = Raise (ValueError "Incorrect 'filter_type'. See module documentation.").
Proof.
  assert (Hall : Forall (has_lowlevel Sample.fresh)
                        (referenced_recordings Sample.genres)).
  { unfold has_lowlevel. simpl. repeat constructor. }
  split; [exact (fresh_no_active_job "abc")|]. split; [exact Hall|].
  split.
  - destruct (evaluate_dataset_option_errors
                Sample.fresh "abc" (JStr "yes") (JStr "album") Sample.genres
                (fresh_no_active_job "abc") eq_refl eq_refl Hall)
      as [H _].
    destruct H as [w' [-> _]]; [intros b Hb; discriminate Hb | reflexivity].
  - destruct (evaluate_dataset_option_errors
                Sample.fresh "abc" (JBool true) (JStr "album") Sample.genres
                (fresh_no_active_job "abc") eq_refl eq_refl Hall)
      as [_ H].
    destruct H as [w' [-> _]];
      [exists true; reflexivity | discriminate | discriminate | reflexivity].
Defined.

(** ** Results do not move the queue *)

Lemma filter_updated (p : Job -> bool) (g : Job -> Job) (jobs : list Job) :
  (forall x, p (g x) = p x)
  -> filter p (map g jobs) = map g (filter p jobs).
Proof.
  intros H. induction jobs as [|x l IH]; [reflexivity|].
  simpl. rewrite H. destruct (p x); simpl; [f_equal|]; exact IH.
Qed.

Lemma insert_by_created_updated (g : Job -> Job) (j : Job)
      (sorted : list Job) :
  (forall x, created (g x) = created x)
  -> Sql.insert_by_created (g j) (map g sorted)
     = map g (Sql.insert_by_created j sorted).
Proof.
  intros H. induction sorted as [|h t IH]; [reflexivity|].
  simpl. rewrite !H.
  destruct (Nat.leb (created j) (created h)); [reflexivity|].
  simpl. f_equal. exact IH.
Qed.

Lemma order_by_created_updated (g : Job -> Job) (rows : list Job) :
  (forall x, created (g x) = created x)
  -> Sql.order_by_created (map g rows) = map g (Sql.order_by_created rows).
Proof.
  intros H. induction rows as [|j rows IH]; [reflexivity|].
  unfold Sql.order_by_created in *. simpl. rewrite IH.
  apply insert_by_created_updated. exact H.
Qed.

(** X14: [set_job_result] does not move the queue, whatever its arguments
    and whether it returns or raises.  For every dataset [job_exists]
    answers as before; [get_next_pending_job] offers a job exactly when it
    did before, and the job it offers is as old as the one offered before. *)
Theorem set_job_result_keeps_queue (w : World) (id : uuid) (r : json) :
  (forall dataset,
      fst (job_exists dataset (snd (set_job_result id r w)))
      = fst (job_exists dataset w))
  /\ (forall offered,
         fst (get_next_pending_job w) = Return offered
         -> exists offered',
           fst (get_next_pending_job (snd (set_job_result id r w)))
           = Return offered'
           /\ option_map created offered' = option_map created offered).
Proof.
  destruct (set_job_result_cases id r w) as [[e ->]|[stored ->]].
  - split; [reflexivity|]. intros offered H. exists offered. auto.
  - cbn [snd].
    set (g := fun j => if Nat.eqb (job_id j) id
                       then set_result stored (current_timestamp w) j
                       else j).
    assert (Hstatus : forall x, status (g x) = status x)
      by (intros x; unfold g; destruct (Nat.eqb (job_id x) id); reflexivity).
    assert (Hdataset : forall x, dataset_id (g x) = dataset_id x)
      by (intros x; unfold g; destruct (Nat.eqb (job_id x) id); reflexivity).
    assert (Hcreated : forall x, created (g x) = created x)
      by (intros x; unfold g; destruct (Nat.eqb (job_id x) id); reflexivity).
    change (updated_rows (set_result stored (current_timestamp w)) id
              (dataset_eval_jobs w))
      with (map g (dataset_eval_jobs w)).
    split.
    + intros dataset. unfold job_exists, begin.
      rewrite !_job_exists_eq. cbn [fst dataset_eval_jobs with_jobs].
      unfold active_jobs. rewrite filter_updated.
      * rewrite length_map. reflexivity.
      * intros x. unfold active. rewrite Hstatus, Hdataset. reflexivity.
    + intros offered.
      unfold get_next_pending_job, connect, bind, Sql.select_jobs, ret.
      rewrite !fetchone_limit_1. cbn [fst dataset_eval_jobs with_jobs].
      intros H. injection H as <-.
      rewrite filter_updated by (intros x; rewrite Hstatus; reflexivity).
      rewrite order_by_created_updated by exact Hcreated.
      eexists. split; [reflexivity|].
      destruct (Sql.order_by_created _) as [|j l]; [reflexivity|].
      simpl. rewrite Hcreated. reflexivity.
Qed.

Lemma set_job_result_keeps_queue_witness :
  fst (get_next_pending_job Sample.backlog)
  = Return (Some (mkJob 2 "abc" "pending" None None "{}" 5 5))
  /\ exists offered',
      fst (get_next_pending_job
             (snd (set_job_result 2 (JStr Sample.score) Sample.backlog)))
      = Return offered'
      /\ option_map created offered' = Some 5.
Proof.
  split; [reflexivity|].
  destruct (set_job_result_keeps_queue Sample.backlog 2 (JStr Sample.score))
    as [_ H].
  exact (H (Some (mkJob 2 "abc" "pending" None None "{}" 5 5)) eq_refl).
Defined.

(** ** From one evaluation to the next *)

Lemma generated_ids_differ (w : World) :
  ids_generated w
  -> forall j, In j (dataset_eval_jobs w) -> job_id j <> uuid_seed w.
Proof.
  intros [Hgen _] j Hj. rewrite Forall_forall in Hgen.
  specialize (Hgen j Hj). lia.
Qed.



(** X16: a dataset can be evaluated again once its job has finished.  Where
    [evaluate_dataset] succeeds (stored ids generated, no active job, a
    complete document, valid options), setting the new job to done or failed
    and calling [evaluate_dataset] again, with any valid options, succeeds
    too and returns another id; the job table then ends with the finished job
    followed by the new pending one. *)
Theorem evaluate_dataset_again_after_finish
        (w : World) (dataset : string)
        (normalize filter_type normalize' filter_type' document : json)
        (s : string) (msg : option string) :
  ids_generated w
  -> no_active_job w dataset
  -> Json.assoc dataset (datasets w) = Some document
  -> Jsonschema.validate JSON_SCHEMA_COMPLETE document = None
  -> Forall (has_lowlevel w) (referenced_recordings document)
  -> valid_options normalize filter_type
  -> valid_options normalize' filter_type'
  -> s = STATUS_DONE \/ s = STATUS_FAILED
  -> exists id1 w1 w2 id2 w3,
      evaluate_dataset dataset normalize filter_type w = (Return id1, w1)
      /\ set_job_status id1 s msg w1 = (Return tt, w2)
      /\ evaluate_dataset dataset normalize' filter_type' w2
         = (Return id2, w3)
      /\ id2 <> id1
      /\ map (fun j => (job_id j, dataset_id j, status j))
             (dataset_eval_jobs w3)
         = (map (fun j => (job_id j, dataset_id j, status j))
                (dataset_eval_jobs w)
            ++ [(id1, dataset, s); (id2, dataset, STATUS_PENDING)])%list.
Proof.
  intros Hgen Hnone Hdoc Hvalid Hall Hopts Hopts' Hs.
  (* the first call *)
  pose proof (evaluate_dataset_complete
                w dataset normalize filter_type document
                Hnone Hdoc Hvalid Hall) as E1.
  destruct (_create_job_cases dataset normalize filter_type
              (with_calls
                 (lowlevel_calls w ++ referenced_recordings document)%list w))
    as [[_ C1]|[Hv _]]; [|contradiction].
  rewrite C1 in E1. clear C1.
  cbn [uuid_seed dataset_eval_jobs with_calls] in E1.
  set (w1 := with_jobs _ _) in E1.
  (* the status update *)
  set (w2 := with_jobs
               (updated_rows (set_status s msg (current_timestamp w1))
                  (uuid_seed w) (dataset_eval_jobs w1)) w1).
  assert (E2 : set_job_status (uuid_seed w) s msg w1 = (Return tt, w2)).
  { unfold set_job_status. destruct Hs as [-> | ->]; reflexivity. }
  assert (Hjobs2 : dataset_eval_jobs w2
                   = (dataset_eval_jobs w
                      ++ [set_status s msg (current_timestamp w)
                            (new_job w dataset normalize filter_type)])%list).
  { unfold w2, w1, updated_rows. cbn [dataset_eval_jobs with_jobs].
    rewrite map_app. cbn [map new_job job_id].
    rewrite Nat.eqb_refl.
    rewrite update_untouched; [reflexivity|].
    apply generated_ids_differ. exact Hgen. }
  (* the second call *)
  assert (Hnone2 : no_active_job w2 dataset).
  { intros j Hj Hd. rewrite Hjobs2 in Hj.
    apply in_app_or in Hj. destruct Hj as [Hj|[<-|[]]].
    - apply Hnone; assumption.
    - destruct Hs as [-> | ->]; split; discriminate. }
  pose proof (evaluate_dataset_complete
                w2 dataset normalize' filter_type' document
                Hnone2 Hdoc Hvalid Hall) as E3.
  destruct (_create_job_cases dataset normalize' filter_type'
              (with_calls
                 (lowlevel_calls w2 ++ referenced_recordings document)%list
                 w2))
    as [[_ C3]|[Hv _]]; [|contradiction].
  rewrite C3 in E3. clear C3.
  exists (uuid_seed w), w1, w2. eexists. eexists.
  split; [exact E1|]. split; [exact E2|]. split; [exact E3|].
  split.
  - cbn [uuid_seed with_calls with_jobs with_seed w2 w1]. lia.
  - cbn [dataset_eval_jobs with_jobs with_calls with_seed].
    rewrite Hjobs2, !map_app, <- app_assoc. reflexivity.
Qed.

Lemma evaluate_dataset_again_after_finish_witness :
  ids_generated Sample.fresh
  /\ no_active_job Sample.fresh "abc"
  /\ exists id1 w1 w2 id2 w3,
      evaluate_dataset "abc" (JBool true) JNull Sample.fresh
      = (Return id1, w1)
      /\ set_job_status id1 STATUS_DONE None w1 = (Return tt, w2)
      /\ evaluate_dataset "abc" (JBool false) (JStr FILTER_ARTIST) w2
         = (Return id2, w3)
      /\ id2 <> id1.
Proof.
  assert (Hall : Forall (has_lowlevel Sample.fresh)
                        (referenced_recordings Sample.genres)).
  { unfold has_lowlevel. simpl. repeat constructor. }
  split; [exact fresh_ids_generated|].
  split; [exact (fresh_no_active_job "abc")|].
  destruct (evaluate_dataset_again_after_finish
              Sample.fresh "abc" (JBool true) JNull
              (JBool false) (JStr FILTER_ARTIST) Sample.genres
              STATUS_DONE None
              fresh_ids_generated (fresh_no_active_job "abc")
              eq_refl eq_refl Hall)
    as [id1 [w1 [w2 [id2 [w3 [H1 [H2 [H3 [Hne _]]]]]]]]].
  - split; [exists true; reflexivity | left; reflexivity].
  - split; [exists false; reflexivity | right; reflexivity].
  - left. reflexivity.
  - exists id1, w1, w2, id2, w3. auto.
Defined.

(** X17: [evaluate_dataset] for one dataset does not change what
    [job_exists] answers for any other dataset, whether the call returns or
    raises. *)
Theorem evaluate_dataset_other_datasets
        (w : World) (dataset other : string) (normalize filter_type : json) :
  other <> dataset
  -> fst (job_exists other
            (snd (evaluate_dataset dataset normalize filter_type w)))
     = fst (job_exists other w).
Proof.
  intros Hne. unfold job_exists, begin. rewrite !_job_exists_eq. cbn [fst].
  destruct (evaluate_dataset_outcome w dataset normalize filter_type)
    as [[e [w' [-> [Hjobs _]]]]|[w' [-> [_ [Hjobs _]]]]];
    cbn [snd]; rewrite Hjobs; [reflexivity|].
  rewrite active_jobs_app.
  assert (E : active_jobs other [new_job w dataset normalize filter_type]
              = []).
  { simpl. apply not_eq_sym, String.eqb_neq in Hne. rewrite Hne.
    reflexivity. }
  rewrite E, app_nil_r. reflexivity.
Qed.

Lemma evaluate_dataset_other_datasets_witness :
  "jkl" <> "abc"
  /\ fst (job_exists "jkl"
            (snd (evaluate_dataset "abc" (JBool true) JNull
                    Sample.moods_running)))
     = Return true
  /\ fst (job_exists "ghi"
            (snd (evaluate_dataset "abc" (JBool true) JNull
                    Sample.moods_running)))
     = Return false.
Proof.
  assert (H1 : "jkl" <> "abc") by discriminate.
  assert (H2 : "ghi" <> "abc") by discriminate.
  split; [exact H1|]. split.
  - rewrite (evaluate_dataset_other_datasets
               Sample.moods_running "abc" "jkl" (JBool true) JNull H1).
    reflexivity.
  - rewrite (evaluate_dataset_other_datasets
               Sample.moods_running "abc" "ghi" (JBool true) JNull H2).
    reflexivity.
Defined.
